(** * The todo service of [02-nodejs/todoServer.file.js]

    A shallow embedding of the Express handlers and of the three helpers
    they rest on ([generateNewId], [getListFromFile], [storeListToFile]),
    followed by the properties of the service.

    Modelling choices.
    - A todo is a JavaScript object read from JSON.  Its [id] is the one
      statically typed key: an integer-valued number, represented by the
      integer it denotes.  Comparing two such numbers is exact; adding 1
      is the addition of doubles, exact up to 2^53 and rounded to the
      nearest double beyond.  Every other key is kept in an open map
      from names to JSON values.
    - The store file is described by what [fs.readFile] and [JSON.parse]
      make of it: it is absent, or it holds a text that is empty, that is
      not JSON, or that is the serialisation of a list of todos.  A file
      holding well-formed JSON of another shape is not described.
    - The callbacks of [fs.readFile] and [fs.writeFile] run one after the
      other, so the handlers are written in a state-and-exception monad
      over the disk; an exception thrown inside a callback is an uncaught
      fault and no response is sent. *)

From Stdlib Require Import ZArith Lia Ascii String.
From stdpp Require Import base option list sorting gmap strings.

Local Open Scope Z_scope.

Set Warnings "-register-all".

(** ** JSON values and JavaScript numbers *)

Module Js.

Inductive value : Type :=
  | Null
  | Bool (b : bool)
  | Num (n : Z)
  | Str (s : string)
  | Arr (items : list value)
  | Obj (members : list (string * value)).

(** [!v] is [negb (truthy v)]; a missing property reads [undefined],
    here [None]. *)
Definition truthy (v : option value) : bool :=
  match v with
  | None => false
  | Some Null => false
  | Some (Bool b) => b
  | Some (Num n) => negb (n =? 0)
  | Some (Str s) => negb (String.eqb s EmptyString)
  | Some (Arr _) => true
  | Some (Obj _) => true
  end.

(** The result of coercing a string to a number with unary plus: the
    sentinel [NaN], an integer, or a number that is not an integer (a
    fraction or an infinity). *)
Inductive number : Type :=
  | NaN
  | Int (z : Z)
  | NonInteger.

(** [x === n] for an integer [x]: no coercion, and [NaN] and the
    non-integers equal no integer. *)
Definition strict_eq (x : Z) (n : number) : bool :=
  match n with
  | Int z => x =? z
  | NaN | NonInteger => false
  end.

(** The double nearest to an integer, ties going to the even
    significand: an integer of magnitude at most 2^53 is a double; a
    greater one keeps its 53 leading bits.  (No integer met here is
    large enough to round to an infinity.) *)
Definition round_double (z : Z) : Z :=
  let a := Z.abs z in
  if a <=? 2 ^ 53 then z
  else
    let e := Z.log2 a - 52 in
    let q := a / 2 ^ e in
    let r := a mod 2 ^ e in
    let half := 2 ^ (e - 1) in
    let q' := if (r <? half) || ((r =? half) && Z.even q) then q else q + 1 in
    Z.sgn z * (q' * 2 ^ e).

Definition digit (a : ascii) : option Z :=
  let n := Z.of_nat (nat_of_ascii a) in
  if (48 <=? n) && (n <=? 57) then Some (n - 48) else None.

Fixpoint digits (acc : Z) (s : string) : option Z :=
  match s with
  | EmptyString => Some acc
  | String a rest =>
      match digit a with
      | Some k => digits (10 * acc + k) rest
      | None => None
      end
  end.

(** Unary plus on a string of decimal digits, where it yields the
    double nearest to the integer written; any other string is read as
    [NaN] here, which is not what unary plus does on a sign, a fraction,
    an exponent, a hexadecimal literal or surrounding blanks.  The
    handlers below take the coercion as a parameter, and this instance
    only serves to run them on requests such as [/todos/1] and
    [/todos/abc]. *)
Definition decimal (s : string) : number :=
  match digits 0 s with
  | Some z => Int (round_double z)
  | None => NaN
  end.

End Js.

Import Js.

Abbreviation object := (gmap string value).

(** ** Todo records *)

Record todo : Type := Todo { id : Z; props : object }.

(** [{...o, id: n}]: the properties of [o] with [id] set to [n]. *)
Definition spread_id (o : object) (n : Z) : todo :=
  {| id := n; props := delete "id"%string o |}.

(** [{...currentItem, ...newItem, id: n}]: on every key but [id] the
    value of [newItem] where it has one, else that of [currentItem]. *)
Definition merge_id (currentItem : todo) (newItem : object) (n : Z) : todo :=
  spread_id (newItem ∪ props currentItem) n.

(** ** Arrays *)

Module Array.

Fixpoint find {A : Type} (p : A → bool) (l : list A) : option A :=
  match l with
  | [] => None
  | x :: rest => if p x then Some x else find p rest
  end.

(** [None] stands for the index [-1]. *)
Fixpoint findIndex {A : Type} (p : A → bool) (l : list A) : option nat :=
  match l with
  | [] => None
  | x :: rest => if p x then Some 0%nat else S <$> findIndex p rest
  end.

Definition push {A : Type} (l : list A) (x : A) : list A := l ++ [x].

(** [l.splice(i, 1)] *)
Definition splice1 {A : Type} (i : nat) (l : list A) : list A := delete i l.

End Array.

(** ** The disk *)

(** What the file holds, read as utf8: nothing, text that is not JSON,
    or the text [JSON.stringify] gives for a list.  Well-formed JSON of
    another shape, which [JSON.parse] would hand over unchecked, is not
    described. *)
Inductive text : Type :=
  | Empty
  | Malformed
  | Stringified (list : list todo).

Definition JSON_stringify (list : list todo) : text := Stringified list.

(** [None] is the [SyntaxError] that [JSON.parse] throws. *)
Definition JSON_parse (data : text) : option (list todo) :=
  match data with
  | Stringified list => Some list
  | Empty | Malformed => None
  end.

Inductive file : Type :=
  | Absent
  | Holds (data : text).

(** The store file at [FILEPATH], and whether [fs.writeFile] succeeds
    on it. *)
Record disk : Type := Disk { store : file; writable : bool }.

Inductive error : Type :=
  | ENOENT
  | SyntaxError
  | EACCES.

(** [fs.readFile(FILEPATH, "utf8", cb)] calls [cb(err, data)]: an error
    and no data, or no error and the content as a string. *)
Definition readFile (d : disk) : option error * option text :=
  match store d with
  | Absent => (Some ENOENT, None)
  | Holds data => (None, Some data)
  end.

(** [fs.writeFile(FILEPATH, data, cb)] calls [cb(err)]. *)
Definition writeFile (data : text) (d : disk) : disk * option error :=
  if writable d
  then ({| store := Holds data; writable := true |}, None)
  else (d, Some EACCES).

(** ** Callbacks in sequence: state over the disk, with exceptions *)

Inductive result (A : Type) : Type :=
  | Return (a : A)
  | Throw (e : error).

Arguments Return {A} a.
Arguments Throw {A} e.

Definition io (A : Type) : Type := disk → disk * result A.

#[global] Instance io_ret : MRet io := λ A a d, (d, Return a).

#[global] Instance io_bind : MBind io := λ A B k m d,
  match m d with
  | (d', Return a) => k a d'
  | (d', Throw e) => (d', Throw e)
  end.

(** ** Responses *)

Inductive payload : Type :=
  | JsonList (list : list todo)
  | JsonItem (item : todo)
  | JsonError (error : string)
  | Plain (message : string).

Record response : Type := Response { status : Z; body : payload }.

(** [res.status(code).send(b)]; [None] below is a request that is never
    answered. *)
Definition send (code : Z) (b : payload) : io (option response) :=
  mret (Some {| status := code; body := b |}).

(** ** The helpers *)

(** [maxId + 1] is an addition of doubles. *)
Definition generateNewId (list : list todo) : Z :=
  let maxId :=
    foldl (λ maxId item, if maxId <? id item then id item else maxId) 0 list in
  round_double (maxId + 1).

(** The value of [maxId] when the loop of [generateNewId] ends. *)
Definition greatest_id (list : list todo) : Z :=
  foldl (λ maxId item, if maxId <? id item then id item else maxId) 0 list.

(** With the ["utf8"] encoding [data] is a string or [undefined], never
    an object, so of the three branches on [typeof data] the one that
    hands [data] back unparsed has no counterpart here. *)
Definition getListFromFile : io (list todo) := λ d,
  match readFile d with
  | (Some err, _) => (d, Throw err)
  | (None, Some data) =>
      match JSON_parse data with
      | Some list => (d, Return list)
      | None => (d, Throw SyntaxError)
      end
  | (None, None) => (d, Return [])
  end.

Definition storeListToFile (list : list todo) : io bool := λ d,
  match writeFile (JSON_stringify list) d with
  | (d', Some err) => (d', Throw err)
  | (d', None) => (d', Return true)
  end.

(** ** The routes *)

Inductive request : Type :=
  | GET_todos
  | GET_todo (param : string)
  | POST_todos (body : object)
  | PUT_todo (param : string) (body : object)
  | DELETE_todo (param : string)
  | OTHER.

Section Routes.

(** [+req.params.id] *)
Variable ToNumber : string → number.

Definition get_todos : io (option response) :=
  list ← getListFromFile;
  send 200 (JsonList list).

Definition get_todo (param : string) : io (option response) :=
  let idn := ToNumber param in
  list ← getListFromFile;
  match Array.find (λ x, strict_eq (id x) idn) list with
  | None => send 404 (JsonError "item not Found")
  | Some foundItem => send 200 (JsonItem foundItem)
  end.

Definition post_todos (newItem : object) : io (option response) :=
  if negb (truthy (newItem !! "title"%string))
  then send 404 (JsonError "title mandatory")
  else
    list ← getListFromFile;
    let list := Array.push list (spread_id newItem (generateNewId list)) in
    isStored ← storeListToFile list;
    if isStored : bool then send 201 (JsonList list) else mret None.

Definition put_todo (param : string) (newItem : object)
  : io (option response) :=
  let idn := ToNumber param in
  list ← getListFromFile;
  match Array.findIndex (λ x, strict_eq (id x) idn) list with
  | None => send 404 (JsonError "item not Found")
  | Some foundIndex =>
      match list !! foundIndex, idn with
      | Some currentItem, Int z =>
          let updatedItem := merge_id currentItem newItem z in
          let list := <[foundIndex := updatedItem]> list in
          isStored ← storeListToFile list;
          if isStored : bool then send 200 (JsonList list) else mret None
      | _, _ =>
          (* not reached: the index is in range and only an integer
             is strictly equal to an id *)
          send 404 (JsonError "item not Found")
      end
  end.

Definition delete_todo (param : string) : io (option response) :=
  let idn := ToNumber param in
  list ← getListFromFile;
  match Array.findIndex (λ x, strict_eq (id x) idn) list with
  | None => send 404 (JsonError "item not Found")
  | Some foundIndex =>
      let list := Array.splice1 foundIndex list in
      isStored ← storeListToFile list;
      if isStored : bool then send 200 (JsonList list) else mret None
  end.

Definition app (req : request) : io (option response) :=
  match req with
  | GET_todos => get_todos
  | GET_todo param => get_todo param
  | POST_todos body => post_todos body
  | PUT_todo param body => put_todo param body
  | DELETE_todo param => delete_todo param
  | OTHER => send 404 (Plain "Route not found")
  end.

(** The id a creation assigned, read off its answer: the id of the
    record at the end of the list sent with status 201. *)
Definition assigned (req : request) (res : option response) : option Z :=
  match req, res with
  | POST_todos _, Some {| status := 201; body := JsonList list |} =>
      id <$> last list
  | _, _ => None
  end.

(** Requests served one after the other, until one faults; the log
    keeps, for each request served, the disk it found and its answer. *)
Fixpoint serve (reqs : list request) (d : disk)
  : list (disk * request * option response) :=
  match reqs with
  | [] => []
  | req :: rest =>
      match app req d with
      | (d', Return res) => (d, req, res) :: serve rest d'
      | (_, Throw _) => []
      end
  end.

Definition assigned_ids (log : list (disk * request * option response))
  : list Z :=
  omap (λ entry, assigned (entry.1.2) (entry.2)) log.

End Routes.

(** ** Requests used to run the service *)

Definition title_A : object := {[ "title"%string := Str "A" ]}.
Definition title_B : object := {[ "title"%string := Str "B" ]}.
Definition done_with_id : object :=
  {[ "completed"%string := Bool true; "id"%string := Num 42 ]}.

Definition done_with_id_titled : object :=
  <[ "title"%string := Str "C" ]> done_with_id.

Definition empty_store : disk :=
  {| store := Holds (JSON_stringify []); writable := true |}.

Definition two_todos : list todo :=
  [ {| id := 1; props := title_A |}; {| id := 5; props := title_B |} ].

Definition two_store : disk :=
  {| store := Holds (JSON_stringify two_todos); writable := true |}.

(** A store whose one record has the id 2^53. *)
Definition big_todos : list todo := [ {| id := 2 ^ 53; props := title_B |} ].

Definition big_store : disk :=
  {| store := Holds (JSON_stringify big_todos); writable := true |}.

(** Whether every id of the stored list is below 2^53, where adding 1 is
    exact. *)
Definition ids_exact (d : disk) : bool :=
  match getListFromFile d with
  | (_, Return list) => forallb (λ x, id x <? 2 ^ 53) list
  | _ => true
  end.

(** Whether a request leaves the greatest id in place: a deletion does
    when each record it matches has a record with a greater id beside
    it; any other request does. *)
Definition spares_greatest (ToNumber : string → number)
    (req : request) (d : disk) : bool :=
  match req, getListFromFile d with
  | DELETE_todo param, (_, Return list) =>
      forallb
        (λ x, implb (strict_eq (id x) (ToNumber param))
                    (existsb (λ y, id x <? id y) list))
        list
  | _, _ => true
  end.

(** The answer to a request for an id that no record has. *)
Definition not_found (d : disk) : disk * result (option response) :=
  (d, Return (Some {| status := 404; body := JsonError "item not Found" |})).

(** The disk once [storeListToFile l] has succeeded. *)
Definition written (l : list todo) : disk :=
  {| store := Holds (JSON_stringify l); writable := true |}.

(** Unfolds the sequencing of callbacks. *)
Ltac run_io :=
  unfold mbind, io_bind, send, mret, io_ret in *; simpl in *.

(** ** The cross-origin middleware *)

(** Request and response headers, keyed by the lower-cased field name as
    Node keeps them; each value is a string. *)
Abbreviation headers := (gmap string string).

(** [allowCrossOrigin(req, res, next)]: the response headers it leaves,
    and whether it called [next].  [if (origin)] holds for a header that
    is present and not the empty string. *)
Definition allowCrossOrigin (req_headers res_headers : headers)
  : headers * bool :=
  let origin := req_headers !! "origin"%string in
  let res_headers :=
    match origin with
    | Some o =>
        if negb (String.eqb o EmptyString)
        then
          <[ "access-control-allow-headers"%string :=
               "Origin, X-Requested-With, Content-Type, Accept"%string ]>
            (<[ "access-control-allow-origin"%string := o ]> res_headers)
        else res_headers
    | None => res_headers
    end in
  (res_headers, true).

(** ** The disk after a run *)

(** The disk that a sequence of requests leaves, served as in [serve]:
    one after the other, up to the first fault. *)
Fixpoint disk_after (ToNumber : string → number) (reqs : list request)
    (d : disk) : disk :=
  match reqs with
  | [] => d
  | req :: rest =>
      match app ToNumber req d with
      | (d', Return _) => disk_after ToNumber rest d'
      | (d', Throw _) => d'
      end
  end.

Definition read_only_store : disk :=
  {| store := Holds (JSON_stringify two_todos); writable := false |}.

Definition no_store : disk := {| store := Absent; writable := true |}.

(** * Properties *)

(** ** The loop of [generateNewId] *)

Section MaxId.

Let step (maxId : Z) (item : todo) : Z :=
  if maxId <? id item then id item else maxId.

Lemma loop_ge_start (l : list todo) (a : Z) : a ≤ foldl step a l.
Proof.
  revert a. induction l as [|x l IH]; intros a; simpl; [lia|].
  etrans; [|apply IH]. unfold step. destruct (Z.ltb_spec a (id x)); lia.
Qed.

Lemma loop_ge_item (l : list todo) (a : Z) (x : todo) :
  x ∈ l → id x ≤ foldl step a l.
Proof.
  revert a. induction l as [|y l IH]; intros a Hx; simpl.
  - by apply elem_of_nil in Hx.
  - apply elem_of_cons in Hx as [->|Hx]; [|by apply IH].
    etrans; [|apply loop_ge_start].
    unfold step. destruct (Z.ltb_spec a (id y)); lia.
Qed.

Lemma loop_attained (l : list todo) (a : Z) :
  foldl step a l = a ∨ ∃ x, x ∈ l ∧ id x = foldl step a l.
Proof.
  revert a. induction l as [|y l IH]; intros a; simpl; [by left|].
  destruct (IH (step a y)) as [Heq|(x & Hx & Heq)].
  - rewrite Heq. unfold step. destruct (Z.ltb_spec a (id y)).
    + right. exists y. split; [apply list_elem_of_here | done].
    + by left.
  - right. exists x. split; [by apply list_elem_of_further | done].
Qed.

(** [greatest_id l] is the greatest of [0] and the ids of [l]. *)
Lemma greatest_id_char (l : list todo) (m : Z) :
  greatest_id l = m ↔
  0 ≤ m ∧ (∀ x, x ∈ l → id x ≤ m) ∧ (m = 0 ∨ ∃ x, x ∈ l ∧ id x = m).
Proof.
  unfold greatest_id. fold step. split.
  - intros <-.
    split; [apply loop_ge_start|].
    split; [intros x Hx; by apply loop_ge_item|].
    destruct (loop_attained l 0) as [->|?]; [by left | by right].
  - intros (H0 & Hle & Hat).
    pose proof (loop_ge_start l 0) as Hs.
    assert (foldl step 0 l ≤ m) as Hm.
    { destruct (loop_attained l 0) as [->|(x & Hx & <-)]; [done | by apply Hle]. }
    assert (m ≤ foldl step 0 l) as Hm'.
    { destruct Hat as [->|(x & Hx & <-)]; [done | by apply loop_ge_item]. }
    lia.
Qed.

End MaxId.

Lemma generateNewId_greatest (l : list todo) :
  generateNewId l = round_double (greatest_id l + 1).
Proof. done. Qed.

Lemma round_double_exact (z : Z) : 0 ≤ z ≤ 2 ^ 53 → round_double z = z.
Proof.
  intros Hz. unfold round_double. rewrite Z.abs_eq by lia.
  destruct (Z.leb_spec z (2 ^ 53)); [done | lia].
Qed.

Lemma greatest_id_nonneg (l : list todo) : 0 ≤ greatest_id l.
Proof. by destruct (proj1 (greatest_id_char l _) eq_refl) as (? & _). Qed.

Lemma greatest_id_ge (l : list todo) (x : todo) :
  x ∈ l → id x ≤ greatest_id l.
Proof.
  destruct (proj1 (greatest_id_char l _) eq_refl) as (_ & Hle & _). apply Hle.
Qed.

Lemma greatest_id_below (l : list todo) (b : Z) :
  0 < b → (∀ x, x ∈ l → id x < b) → greatest_id l < b.
Proof.
  intros Hb Hlt.
  destruct (proj1 (greatest_id_char l _) eq_refl) as (_ & _ & [->|(x & Hx & <-)]);
    [done | by apply Hlt].
Qed.

(** Where every id is below 2^53 the addition is exact. *)
Lemma generateNewId_exact (l : list todo) :
  (∀ x, x ∈ l → id x < 2 ^ 53) → generateNewId l = greatest_id l + 1.
Proof.
  intros Hlt. rewrite generateNewId_greatest. apply round_double_exact.
  pose proof (greatest_id_nonneg l).
  pose proof (greatest_id_below l (2 ^ 53) eq_refl Hlt). lia.
Qed.

Lemma generateNewId_gt (l : list todo) (x : todo) :
  (∀ y, y ∈ l → id y < 2 ^ 53) → x ∈ l → id x < generateNewId l.
Proof.
  intros Hlt Hx. rewrite generateNewId_exact by done.
  pose proof (greatest_id_ge l x Hx). lia.
Qed.

Lemma generateNewId_pos (l : list todo) :
  (∀ y, y ∈ l → id y < 2 ^ 53) → 0 < generateNewId l.
Proof.
  intros Hlt. rewrite generateNewId_exact by done.
  pose proof (greatest_id_nonneg l). lia.
Qed.

Lemma generateNewId_fresh (l : list todo) :
  (∀ y, y ∈ l → id y < 2 ^ 53) → generateNewId l ∉ (id <$> l).
Proof.
  intros Hlt (x & Heq & Hx)%list_elem_of_fmap.
  apply (generateNewId_gt l x Hlt) in Hx. lia.
Qed.

(** Two lists in which the same ids occur have the same greatest id. *)
Lemma greatest_id_same_ids (l l' : list todo) :
  (∀ n, n ∈ (id <$> l) ↔ n ∈ (id <$> l')) → greatest_id l = greatest_id l'.
Proof.
  intros Hids.
  assert (∀ k k' : list todo,
            (∀ n, n ∈ (id <$> k) → n ∈ (id <$> k')) →
            ∀ x, x ∈ k → ∃ y, y ∈ k' ∧ id y = id x) as Hmove.
  { intros k k' Hk x Hx.
    destruct (proj1 (list_elem_of_fmap id k' (id x))) as (y & ? & ?);
      [by apply Hk, list_elem_of_fmap_2|]. eauto. }
  destruct (proj1 (greatest_id_char l _) eq_refl) as (H0 & Hle & Hat).
  symmetry. apply greatest_id_char. split; [done|]. split.
  - intros y Hy.
    destruct (Hmove l' l (λ n, proj2 (Hids n)) y Hy) as (x & Hx & <-).
    by apply Hle.
  - destruct Hat as [?|(x & Hx & Heq)]; [by left|].
    right. destruct (Hmove l l' (λ n, proj1 (Hids n)) x Hx) as (y & Hy & Hyx).
    exists y. split; [done | congruence].
Qed.

(** A record pushed with an id above the greatest takes its place. *)
Lemma greatest_id_push (l : list todo) (o : object) (n : Z) :
  greatest_id l < n → greatest_id (Array.push l (spread_id o n)) = n.
Proof.
  intros Hn. apply greatest_id_char. pose proof (greatest_id_nonneg l).
  split; [lia|]. split.
  - intros x [Hx|Hx]%elem_of_app.
    + pose proof (greatest_id_ge l x Hx). lia.
    + apply list_elem_of_singleton in Hx as ->. simpl. lia.
  - right. eexists. split; [apply elem_of_app; right; apply list_elem_of_here|done].
Qed.

(** ** Reading and writing the store *)

Lemma getListFromFile_disk (d : disk) : (getListFromFile d).1 = d.
Proof.
  unfold getListFromFile, readFile.
  destruct (store d) as [|data]; [done|]. simpl. by destruct (JSON_parse data).
Qed.

Lemma getListFromFile_loaded (d : disk) (l : list todo) :
  getListFromFile d = (d, Return l) ↔ store d = Holds (JSON_stringify l).
Proof.
  unfold getListFromFile, readFile.
  destruct (store d) as [|[| |l']]; simpl; split; intros H; try done.
  - by inversion H.
  - by inversion H.
Qed.

Lemma getListFromFile_written (l : list todo) (w : bool) :
  let d := {| store := Holds (JSON_stringify l); writable := w |} in
  getListFromFile d = (d, Return l).
Proof. done. Qed.

Lemma storeListToFile_ok (l : list todo) (d : disk) :
  writable d = true →
  storeListToFile l d
  = ({| store := Holds (JSON_stringify l); writable := true |}, Return true).
Proof. intros Hw. unfold storeListToFile, writeFile. by rewrite Hw. Qed.

Lemma storeListToFile_refused (l : list todo) (d : disk) :
  writable d = false → storeListToFile l d = (d, Throw EACCES).
Proof. intros Hw. unfold storeListToFile, writeFile. by rewrite Hw. Qed.

(** ** Searching a list *)

Section Search.

Context {A : Type} (p : A → bool).

Lemma find_none (l : list A) :
  (∀ x, x ∈ l → p x = false) → Array.find p l = None.
Proof.
  induction l as [|y l IH]; intros H; simpl; [done|].
  rewrite (H y) by apply list_elem_of_here.
  apply IH. intros x Hx. by apply H, list_elem_of_further.
Qed.

Lemma findIndex_none (l : list A) :
  (∀ x, x ∈ l → p x = false) → Array.findIndex p l = None.
Proof.
  induction l as [|y l IH]; intros H; simpl; [done|].
  rewrite (H y) by apply list_elem_of_here.
  rewrite IH; [done|]. intros x Hx. by apply H, list_elem_of_further.
Qed.

(** The index found is that of the first element satisfying [p]. *)
Lemma findIndex_some (l : list A) (i : nat) :
  Array.findIndex p l = Some i →
  ∃ l1 x l2, l = l1 ++ x :: l2 ∧ length l1 = i ∧ p x = true
             ∧ Forall (λ y, p y = false) l1.
Proof.
  revert i. induction l as [|y l IH]; intros i; simpl; [done|].
  destruct (p y) eqn:Hy.
  - intros [= <-]. by exists [], y, l.
  - destruct (Array.findIndex p l) as [j|]; [|done]. simpl. intros [= <-].
    destruct (IH j eq_refl) as (l1 & x & l2 & -> & Hlen & Hx & Hl1).
    exists (y :: l1), x, l2. repeat split; simpl; auto.
Qed.

Lemma findIndex_is_Some (l : list A) (x : A) :
  x ∈ l → p x = true → is_Some (Array.findIndex p l).
Proof.
  induction l as [|y l IH]; intros Hx Hp; simpl.
  - by apply elem_of_nil in Hx.
  - destruct (p y) eqn:Hy; [by eexists|].
    apply elem_of_cons in Hx as [->|Hx]; [congruence|].
    destruct (IH Hx Hp) as [j ->]. by eexists.
Qed.

Lemma find_middle (l1 l2 : list A) (x : A) :
  Forall (λ y, p y = false) l1 → p x = true →
  Array.find p (l1 ++ x :: l2) = Some x.
Proof.
  intros Hl1 Hx. induction Hl1 as [|y l1 Hy _ IH]; simpl.
  - by rewrite Hx.
  - by rewrite Hy.
Qed.

End Search.

Lemma middle_lookup {A : Type} (l1 l2 : list A) (x : A) :
  (l1 ++ x :: l2) !! length l1 = Some x.
Proof. by rewrite list_lookup_middle. Qed.

Lemma middle_insert {A : Type} (l1 l2 : list A) (x y : A) :
  <[length l1 := y]> (l1 ++ x :: l2) = l1 ++ y :: l2.
Proof.
  rewrite insert_app_r_alt by lia. by rewrite Nat.sub_diag.
Qed.

Lemma middle_delete {A : Type} (l1 l2 : list A) (x : A) :
  delete (length l1) (l1 ++ x :: l2) = l1 ++ l2.
Proof.
  induction l1 as [|y l1 IH]; simpl; [done|]. by rewrite IH.
Qed.

Lemma strict_eq_Int (x : Z) (n : number) :
  strict_eq x n = true → n = Int x.
Proof. destruct n as [|z|]; simpl; try done. by intros ->%Z.eqb_eq. Qed.

Lemma strict_eq_NaN (x : Z) : strict_eq x NaN = false.
Proof. done. Qed.

Lemma findIndex_middle {A : Type} (p : A → bool) (l1 l2 : list A) (x : A) :
  Forall (λ y, p y = false) l1 → p x = true →
  Array.findIndex p (l1 ++ x :: l2) = Some (length l1).
Proof.
  intros Hl1 Hx. induction Hl1 as [|y l1 Hy _ IH]; simpl.
  - by rewrite Hx.
  - by rewrite Hy, IH.
Qed.

(** Either nothing in the list satisfies [p], or the list splits at the
    first element that does. *)
Lemma first_match {A : Type} (p : A → bool) (l : list A) :
  (∀ x, x ∈ l → p x = false) ∨
  (∃ l1 x l2, l = l1 ++ x :: l2 ∧ p x = true ∧ Forall (λ y, p y = false) l1).
Proof.
  induction l as [|y l IH]; [left; by intros x ?%elem_of_nil|].
  destruct (p y) eqn:Hy.
  - right. by exists [], y, l.
  - destruct IH as [Hno|(l1 & x & l2 & -> & Hx & Hl1)].
    + left. intros x [->|Hx]%elem_of_cons; auto.
    + right. exists (y :: l1), x, l2. auto.
Qed.

(** ** The handlers on a store that loads *)

Section Handlers.

Variable ToNumber : string → number.

Variables (d : disk) (l : list todo).
Hypothesis loaded : getListFromFile d = (d, Return l).

Lemma get_todos_loaded :
  get_todos d = (d, Return (Some {| status := 200; body := JsonList l |})).
Proof. unfold get_todos. run_io. by rewrite loaded. Qed.

Lemma get_todo_absent (param : string) :
  (∀ x, x ∈ l → strict_eq (id x) (ToNumber param) = false) →
  get_todo ToNumber param d = not_found d.
Proof.
  intros Hno. unfold get_todo. run_io. rewrite loaded.
  by rewrite find_none.
Qed.

Lemma put_todo_absent (param : string) (newItem : object) :
  (∀ x, x ∈ l → strict_eq (id x) (ToNumber param) = false) →
  put_todo ToNumber param newItem d = not_found d.
Proof.
  intros Hno. unfold put_todo. run_io. rewrite loaded.
  by rewrite findIndex_none.
Qed.

Lemma delete_todo_absent (param : string) :
  (∀ x, x ∈ l → strict_eq (id x) (ToNumber param) = false) →
  delete_todo ToNumber param d = not_found d.
Proof.
  intros Hno. unfold delete_todo. run_io. rewrite loaded.
  by rewrite findIndex_none.
Qed.

Lemma post_todos_loaded (newItem : object) :
  truthy (newItem !! "title"%string) = true →
  let list' := Array.push l (spread_id newItem (generateNewId l)) in
  post_todos newItem d =
    if writable d
    then (written list',
          Return (Some {| status := 201; body := JsonList list' |}))
    else (d, Throw EACCES).
Proof.
  intros Ht. unfold post_todos. rewrite Ht. run_io. rewrite loaded.
  destruct (writable d) eqn:Hw.
  - by rewrite storeListToFile_ok.
  - by rewrite storeListToFile_refused.
Qed.

Section Found.

Variables (param : string) (l1 l2 : list todo) (cur : todo).
Hypothesis split_at : l = l1 ++ cur :: l2.
Hypothesis matched : strict_eq (id cur) (ToNumber param) = true.
Hypothesis first : Forall (λ y, strict_eq (id y) (ToNumber param) = false) l1.

Lemma get_todo_found :
  get_todo ToNumber param d
  = (d, Return (Some {| status := 200; body := JsonItem cur |})).
Proof.
  unfold get_todo. run_io. rewrite loaded, split_at.
  by rewrite find_middle.
Qed.

Lemma put_todo_found (newItem : object) :
  let list' := l1 ++ merge_id cur newItem (id cur) :: l2 in
  put_todo ToNumber param newItem d =
    if writable d
    then (written list',
          Return (Some {| status := 200; body := JsonList list' |}))
    else (d, Throw EACCES).
Proof.
  unfold put_todo. run_io. rewrite loaded, split_at.
  rewrite findIndex_middle by done.
  rewrite middle_lookup, (strict_eq_Int _ _ matched), middle_insert.
  destruct (writable d) eqn:Hw.
  - by rewrite storeListToFile_ok.
  - by rewrite storeListToFile_refused.
Qed.

Lemma delete_todo_found :
  let list' := l1 ++ l2 in
  delete_todo ToNumber param d =
    if writable d
    then (written list',
          Return (Some {| status := 200; body := JsonList list' |}))
    else (d, Throw EACCES).
Proof.
  unfold delete_todo. run_io. rewrite loaded, split_at.
  rewrite findIndex_middle by done.
  unfold Array.splice1. rewrite middle_delete.
  destruct (writable d) eqn:Hw.
  - by rewrite storeListToFile_ok.
  - by rewrite storeListToFile_refused.
Qed.

End Found.

End Handlers.

(** A store that does not load answers nothing but what needs no list. *)
Lemma unloaded_fault (ToNumber : string → number) (d : disk) (e : error)
    (req : request) :
  getListFromFile d = (d, Throw e) →
  app ToNumber req d = (d, Throw e)
  ∨ ∃ res, app ToNumber req d = (d, Return (Some res)) ∧ status res = 404.
Proof.
  intros Hl.
  destruct req as [|param|newItem|param newItem|param|]; simpl.
  - left. unfold get_todos. run_io. by rewrite Hl.
  - left. unfold get_todo. run_io. by rewrite Hl.
  - unfold post_todos. destruct (truthy (newItem !! "title"%string)); simpl.
    + left. run_io. by rewrite Hl.
    + right. by eexists.
  - left. unfold put_todo. run_io. by rewrite Hl.
  - left. unfold delete_todo. run_io. by rewrite Hl.
  - right. by eexists.
Qed.

(** * The service *)

(** C1, as stated, fails: the one record of the list has the positive
    id 2^53, and the new id is 2^53 again, since 2^53 + 1 is no double;
    it is not the greatest id plus 1 and it is the id of a record of the
    list. *)
Lemma generateNewId_repeats_2_53 :
  Forall (λ x, 0 < id x) big_todos
  ∧ id (spread_id title_A (generateNewId big_todos)) = 2 ^ 53
  ∧ id (spread_id title_A (generateNewId big_todos)) ≠ 2 ^ 53 + 1
  ∧ id (spread_id title_A (generateNewId big_todos)) ∈ (id <$> big_todos).
Proof.
  split; [by apply (bool_decide_unpack _)|].
  split; [by vm_compute|]. split; [by vm_compute|].
  apply list_elem_of_here.
Qed.

(** C1, amended.  On a list whose ids are positive integers below 2^53,
    the id given to a new record is 1 when the list is empty and
    otherwise the greatest id of the list plus 1; it is strictly
    positive and is the id of no record of the list. *)
Theorem generateNewId_spec (l : list todo) (newItem : object) :
  Forall (λ x, 0 < id x < 2 ^ 53) l →
  let assigned_id := id (spread_id newItem (generateNewId l)) in
  (l = [] → assigned_id = 1)
  ∧ (l ≠ [] →
     ∃ x, x ∈ l ∧ (∀ y, y ∈ l → id y ≤ id x) ∧ assigned_id = id x + 1)
  ∧ 0 < assigned_id
  ∧ assigned_id ∉ (id <$> l).
Proof.
  intros Hpos. simpl. rewrite Forall_forall in Hpos.
  assert (∀ y, y ∈ l → id y < 2 ^ 53) as Hlt by (intros y Hy; by apply Hpos).
  split; [by intros ->|].
  split; [|split; [by apply generateNewId_pos | by apply generateNewId_fresh]].
  intros Hne. rewrite generateNewId_exact by done.
  destruct (proj1 (greatest_id_char l _) eq_refl) as (_ & Hle & Hat).
  destruct Hat as [H0|(x & Hx & Heq)].
  - destruct l as [|y l]; [done|].
    pose proof (Hpos y (list_elem_of_here _ _)).
    specialize (Hle y (list_elem_of_here _ _)). lia.
  - exists x. split; [done|]. split; [|lia].
    intros y Hy. rewrite Heq. by apply Hle.
Qed.

Lemma generateNewId_spec_witness :
  id (spread_id title_A (generateNewId [])) = 1
  ∧ (∃ x, x ∈ two_todos ∧ (∀ y, y ∈ two_todos → id y ≤ id x)
          ∧ id (spread_id title_A (generateNewId two_todos)) = id x + 1)
  ∧ id (spread_id title_A (generateNewId two_todos)) ∉ (id <$> two_todos).
Proof.
  split; [|split].
  - apply (generateNewId_spec [] title_A); [constructor | reflexivity].
  - apply (generateNewId_spec two_todos title_A);
      [by apply (bool_decide_unpack _) | discriminate].
  - apply (generateNewId_spec two_todos title_A).
    by apply (bool_decide_unpack _).
Defined.

(** C2. [POST /todos] with a missing or falsy title answers 404
    [{error: "title mandatory"}] and leaves the disk as it was; with a
    truthy title, on a store that loads and can be written, it appends
    to the loaded list one record, which has the generated id and on
    every other key what the body has ([{...body, id: generated}]),
    writes that list and answers 201 with the whole list. *)
Theorem post_todos_spec (newItem : object) (d : disk) :
  (truthy (newItem !! "title"%string) = false →
   post_todos newItem d
   = (d, Return (Some {| status := 404;
                         body := JsonError "title mandatory" |})))
  ∧ (truthy (newItem !! "title"%string) = true →
     ∀ l, getListFromFile d = (d, Return l) → writable d = true →
     ∃ item : todo,
       let list' := l ++ [item] in
       post_todos newItem d
       = ({| store := Holds (JSON_stringify list'); writable := true |},
          Return (Some {| status := 201; body := JsonList list' |}))
       ∧ id item = generateNewId l
       ∧ (∀ k : string, k ≠ "id"%string → props item !! k = newItem !! k)
       ∧ props item !! "id"%string = None).
Proof.
  split.
  - intros Ht. unfold post_todos. by rewrite Ht.
  - intros Ht l Hl Hw. exists (spread_id newItem (generateNewId l)).
    rewrite (post_todos_loaded d l Hl newItem Ht), Hw.
    split; [done|]. split; [done|]. simpl. split.
    + intros k Hk. by rewrite lookup_delete_ne.
    + apply lookup_delete_eq.
Qed.

Lemma post_todos_spec_witness :
  post_todos ∅ two_store
  = (two_store, Return (Some {| status := 404;
                                body := JsonError "title mandatory" |}))
  ∧ ∃ item : todo,
      post_todos done_with_id_titled two_store
      = (written (two_todos ++ [item]),
         Return (Some {| status := 201;
                         body := JsonList (two_todos ++ [item]) |}))
      ∧ id item = 6
      ∧ props item !! "title"%string = Some (Str "C")
      ∧ props item !! "completed"%string = Some (Bool true)
      ∧ props item !! "id"%string = None.
Proof.
  split.
  - apply (post_todos_spec ∅ two_store). reflexivity.
  - destruct (proj2 (post_todos_spec done_with_id_titled two_store) eq_refl
                two_todos eq_refl eq_refl)
      as (item & Hpost & Hid & Hprops & Hnoid).
    exists item. split; [exact Hpost|]. split; [exact Hid|].
    split; [by rewrite Hprops|]. split; [by rewrite Hprops | exact Hnoid].
Defined.

(** C3. [PUT /todos/:id] on a store that loads and can be written, when
    a record of the loaded list has the path id: the first such record is
    replaced by the merge of the body over it with [id] set to the path
    id, which is the id it had; the list is written and the answer is 200
    with the whole list. *)
Theorem put_todo_spec (ToNumber : string → number) (param : string)
    (newItem : object) (d : disk) (l : list todo) :
  getListFromFile d = (d, Return l) →
  writable d = true →
  (∃ x, x ∈ l ∧ strict_eq (id x) (ToNumber param) = true) →
  ∃ (i : nat) (cur : todo) (z : Z),
    l !! i = Some cur ∧ ToNumber param = Int z ∧
    let updated := merge_id cur newItem z in
    let list' := <[i := updated]> l in
    put_todo ToNumber param newItem d
    = ({| store := Holds (JSON_stringify list'); writable := true |},
       Return (Some {| status := 200; body := JsonList list' |}))
    ∧ id updated = z ∧ id cur = z
    ∧ (∀ k : string, k ≠ "id"%string →
         props updated !! k
         = match newItem !! k with
           | Some v => Some v
           | None => props cur !! k
           end).
Proof.
  intros Hl Hw (x & Hx & Hm).
  destruct (first_match (λ y, strict_eq (id y) (ToNumber param)) l)
    as [Hno|(l1 & cur & l2 & -> & Hcur & Hl1)].
  { rewrite (Hno x Hx) in Hm. discriminate. }
  exists (length l1), cur, (id cur).
  split; [apply middle_lookup|].
  split; [by apply strict_eq_Int|].
  simpl. rewrite middle_insert.
  rewrite (put_todo_found ToNumber d _ Hl param l1 l2 cur eq_refl Hcur Hl1).
  rewrite Hw. split; [done|]. split; [done|]. split; [done|].
  intros k Hk. unfold merge_id, spread_id. simpl.
  rewrite lookup_delete_ne by done.
  rewrite lookup_union. destruct (newItem !! k), (props cur !! k); done.
Qed.

Lemma put_todo_spec_witness :
  ∃ (i : nat) (cur : todo) (z : Z),
    two_todos !! i = Some cur ∧ decimal "5" = Int z ∧
    let updated := merge_id cur done_with_id z in
    let list' := <[i := updated]> two_todos in
    put_todo decimal "5" done_with_id two_store
    = ({| store := Holds (JSON_stringify list'); writable := true |},
       Return (Some {| status := 200; body := JsonList list' |}))
    ∧ id updated = z ∧ id cur = z
    ∧ (∀ k : string, k ≠ "id"%string →
         props updated !! k
         = match done_with_id !! k with
           | Some v => Some v
           | None => props cur !! k
           end).
Proof.
  apply (put_todo_spec decimal "5" done_with_id two_store two_todos).
  - reflexivity.
  - reflexivity.
  - exists {| id := 5; props := title_B |}. split; [|reflexivity].
    unfold two_todos. apply list_elem_of_further, list_elem_of_here.
Defined.

(** C4, as stated, fails: with no store file the loader does not return
    the empty list, it throws the read error; with an empty file it
    throws the parse error. *)
Lemma getListFromFile_no_default :
  getListFromFile {| store := Absent; writable := true |}
  = ({| store := Absent; writable := true |}, Throw ENOENT)
  ∧ getListFromFile {| store := Holds Empty; writable := true |}
    = ({| store := Holds Empty; writable := true |}, Throw SyntaxError)
  ∧ (getListFromFile {| store := Absent; writable := true |}).2 ≠ Return []
  ∧ (getListFromFile {| store := Holds Empty; writable := true |}).2
    ≠ Return [].
Proof. repeat split; discriminate. Qed.

(** C4, amended.  The store loader never writes, and what it yields is
    fixed by the file: the read error is thrown when the file does not
    exist, the parse error is thrown when the file is empty or holds
    malformed content, and the list is returned when the file holds the
    serialisation of a list. *)
Theorem getListFromFile_spec (d : disk) :
  (getListFromFile d).1 = d
  ∧ (getListFromFile d).2
    = match store d with
      | Absent => Throw ENOENT
      | Holds Empty => Throw SyntaxError
      | Holds Malformed => Throw SyntaxError
      | Holds (Stringified list) => Return list
      end.
Proof.
  split; [apply getListFromFile_disk|].
  unfold getListFromFile, readFile. by destruct (store d) as [|[| |l]].
Qed.

(** C7. On a store that loads, [GET], [PUT] and [DELETE] on
    [/todos/:id] answer 404 [{error: "item not Found"}] and leave the
    disk as it was whenever the path parameter coerces to [NaN], as
    every non-numeric one does, or to a number that is the id of no
    record. *)
Theorem absent_id_spec (ToNumber : string → number) (param : string)
    (newItem : object) (d : disk) (l : list todo) :
  getListFromFile d = (d, Return l) →
  (ToNumber param = NaN
   ∨ ∀ x, x ∈ l → strict_eq (id x) (ToNumber param) = false) →
  let answer :=
    (d, Return (Some {| status := 404; body := JsonError "item not Found" |}))
  in
  get_todo ToNumber param d = answer
  ∧ put_todo ToNumber param newItem d = answer
  ∧ delete_todo ToNumber param d = answer.
Proof.
  intros Hl Hno.
  assert (∀ x, x ∈ l → strict_eq (id x) (ToNumber param) = false) as Hno'.
  { destruct Hno as [->|Hno]; [intros; apply strict_eq_NaN | done]. }
  split; [|split].
  - by apply (get_todo_absent ToNumber d l).
  - by apply (put_todo_absent ToNumber d l).
  - by apply (delete_todo_absent ToNumber d l).
Qed.

Lemma absent_id_spec_witness :
  let answer :=
    (two_store,
     Return (Some {| status := 404; body := JsonError "item not Found" |}))
  in
  (get_todo decimal "abc" two_store = answer
   ∧ put_todo decimal "abc" title_A two_store = answer
   ∧ delete_todo decimal "abc" two_store = answer)
  ∧ (get_todo decimal "3" two_store = answer
     ∧ put_todo decimal "3" title_A two_store = answer
     ∧ delete_todo decimal "3" two_store = answer).
Proof.
  split.
  - apply (absent_id_spec decimal "abc" title_A two_store two_todos);
      [reflexivity | left; reflexivity].
  - apply (absent_id_spec decimal "3" title_A two_store two_todos);
      [reflexivity | right].
    intros x Hx. unfold two_todos in Hx.
    repeat (apply elem_of_cons in Hx as [->|Hx]; [reflexivity|]).
    by apply elem_of_nil in Hx.
Defined.

(** C8, as stated, fails: on the store whose one record has the id
    2^53, a creation with a title is assigned 2^53 again, and fetching
    that id answers with the old record, not with the one created. *)
Lemma fetch_after_create_at_2_53 :
  let d' := (post_todos title_A big_store).1 in
  truthy (title_A !! "title"%string) = true
  ∧ (∃ res, (post_todos title_A big_store).2 = Return (Some res)
            ∧ assigned (POST_todos title_A) (Some res) = Some (2 ^ 53))
  ∧ decimal "9007199254740992" = Int (2 ^ 53)
  ∧ get_todo decimal "9007199254740992" d'
    = (d', Return (Some {| status := 200;
                           body := JsonItem
                                     {| id := 2 ^ 53; props := title_B |} |}))
  ∧ props {| id := 2 ^ 53; props := title_B |} !! "title"%string
    ≠ title_A !! "title"%string.
Proof.
  split; [done|]. split; [eexists; split; by vm_compute|].
  split; [by vm_compute|]. split; [by vm_compute|].
  by vm_compute.
Qed.

(** C8, amended.  After a creation with a truthy title on a store that
    loads, can be written and holds only ids below 2^53, fetching the id
    that was assigned answers 200 with the record
    [{...body, id: assigned}]: the assigned id, and on every other key
    what the body has. *)
Theorem create_then_fetch (ToNumber : string → number) (newItem : object)
    (d : disk) (l : list todo) (param : string) :
  truthy (newItem !! "title"%string) = true →
  getListFromFile d = (d, Return l) →
  writable d = true →
  Forall (λ x, id x < 2 ^ 53) l →
  let n := generateNewId l in
  let item := spread_id newItem n in
  let d' := written (l ++ [item]) in
  ∃ res : response,
    post_todos newItem d = (d', Return (Some res))
    ∧ status res = 201
    ∧ assigned (POST_todos newItem) (Some res) = Some n
    ∧ (ToNumber param = Int n →
       get_todo ToNumber param d'
       = (d', Return (Some {| status := 200; body := JsonItem item |})))
    ∧ id item = n
    ∧ (∀ k : string, k ≠ "id"%string → props item !! k = newItem !! k).
Proof.
  intros Ht Hl Hw Hlt n item d'. rewrite Forall_forall in Hlt.
  pose proof (post_todos_loaded d l Hl newItem Ht) as Hpost.
  rewrite Hw in Hpost. simpl in Hpost.
  eexists. split; [exact Hpost|]. split; [done|]. split.
  { simpl. unfold Array.push. by rewrite last_snoc. }
  split; [|split; [done|]].
  - intros Hn.
    apply (get_todo_found ToNumber _ _ (getListFromFile_written _ true)
             param l [] _ eq_refl).
    + rewrite Hn. simpl. apply Z.eqb_refl.
    + rewrite Hn. apply Forall_forall. intros y Hy. simpl.
      apply (generateNewId_gt l y Hlt) in Hy. apply Z.eqb_neq. fold n. lia.
  - intros k Hk. simpl. by rewrite lookup_delete_ne.
Qed.

Lemma create_then_fetch_witness :
  let item := spread_id done_with_id_titled 6 in
  let d' := written (two_todos ++ [item]) in
  ∃ res : response,
    post_todos done_with_id_titled two_store = (d', Return (Some res))
    ∧ assigned (POST_todos done_with_id_titled) (Some res) = Some 6
    ∧ get_todo decimal "6" d'
      = (d', Return (Some {| status := 200; body := JsonItem item |}))
    ∧ props item !! "completed"%string = Some (Bool true).
Proof.
  assert (Forall (λ x, id x < 2 ^ 53) two_todos) as Hlt
    by (by apply (bool_decide_unpack _)).
  destruct (create_then_fetch decimal done_with_id_titled two_store
              two_todos "6" eq_refl eq_refl eq_refl Hlt)
    as (res & Hpost & _ & Hid & Hget & _ & Hprops).
  exists res. split; [exact Hpost|]. split; [exact Hid|].
  split; [apply Hget; reflexivity|].
  rewrite Hprops by discriminate. reflexivity.
Defined.

(** ** One request on a store that loads *)

Lemma getListFromFile_cases (d : disk) :
  (∃ l, getListFromFile d = (d, Return l))
  ∨ (∃ e, getListFromFile d = (d, Throw e)).
Proof.
  pose proof (getListFromFile_disk d) as Hd.
  destruct (getListFromFile d) as [d0 [l|e]]; simpl in Hd; subst d0; eauto.
Qed.

(** A request either leaves the disk as it was and assigns no id, or is
    a creation, an update or a deletion that went through. *)
Lemma app_loaded (ToNumber : string → number) (req : request) (d : disk)
    (l : list todo) :
  getListFromFile d = (d, Return l) →
  (∃ r, app ToNumber req d = (d, r)
        ∧ ∀ res, r = Return res → assigned req res = None)
  ∨ (∃ newItem,
       let list' := l ++ [spread_id newItem (generateNewId l)] in
       req = POST_todos newItem
       ∧ app ToNumber req d
         = (written list',
            Return (Some {| status := 201; body := JsonList list' |})))
  ∨ (∃ param newItem l1 cur l2,
       let list' := l1 ++ merge_id cur newItem (id cur) :: l2 in
       req = PUT_todo param newItem
       ∧ l = l1 ++ cur :: l2
       ∧ strict_eq (id cur) (ToNumber param) = true
       ∧ Forall (λ y, strict_eq (id y) (ToNumber param) = false) l1
       ∧ app ToNumber req d
         = (written list',
            Return (Some {| status := 200; body := JsonList list' |})))
  ∨ (∃ param l1 cur l2,
       let list' := l1 ++ l2 in
       req = DELETE_todo param
       ∧ l = l1 ++ cur :: l2
       ∧ strict_eq (id cur) (ToNumber param) = true
       ∧ Forall (λ y, strict_eq (id y) (ToNumber param) = false) l1
       ∧ app ToNumber req d
         = (written list',
            Return (Some {| status := 200; body := JsonList list' |}))).
Proof.
  intros Hl.
  destruct req as [|param|newItem|param newItem|param|]; simpl.
  - left. eexists. split; [by apply get_todos_loaded|]. by intros ? [= <-].
  - left.
    destruct (first_match (λ y, strict_eq (id y) (ToNumber param)) l)
      as [Hno|(l1 & cur & l2 & Heq & Hcur & Hl1)].
    + eexists. split; [by apply (get_todo_absent ToNumber d l)|].
      by intros ? [= <-].
    + eexists. split; [by apply (get_todo_found ToNumber d l Hl param l1 l2)|].
      by intros ? [= <-].
  - destruct (truthy (newItem !! "title"%string)) eqn:Ht.
    + rewrite (post_todos_loaded d l Hl newItem Ht).
      destruct (writable d).
      * right. left. by exists newItem.
      * left. eexists. split; [done|]. by intros ? [=].
    + left. unfold post_todos. rewrite Ht. simpl.
      eexists. split; [done|]. by intros ? [= <-].
  - destruct (first_match (λ y, strict_eq (id y) (ToNumber param)) l)
      as [Hno|(l1 & cur & l2 & Heq & Hcur & Hl1)].
    + left. eexists.
      split; [by apply (put_todo_absent ToNumber d l)|]. by intros ? [= <-].
    + rewrite (put_todo_found ToNumber d l Hl param l1 l2 cur Heq Hcur Hl1).
      destruct (writable d).
      * right. right. left. by exists param, newItem, l1, cur, l2.
      * left. eexists. split; [done|]. by intros ? [=].
  - destruct (first_match (λ y, strict_eq (id y) (ToNumber param)) l)
      as [Hno|(l1 & cur & l2 & Heq & Hcur & Hl1)].
    + left. eexists.
      split; [by apply (delete_todo_absent ToNumber d l)|]. by intros ? [= <-].
    + rewrite (delete_todo_found ToNumber d l Hl param l1 l2 cur Heq Hcur Hl1).
      destruct (writable d).
      * right. right. right. by exists param, l1, cur, l2.
      * left. eexists. split; [done|]. by intros ? [=].
  - left. eexists. split; [done|]. by intros ? [= <-].
Qed.

(** A store that does not load is never written. *)
Lemma app_unloaded (ToNumber : string → number) (req : request) (d : disk)
    (e : error) :
  getListFromFile d = (d, Throw e) →
  ∃ r, app ToNumber req d = (d, r)
       ∧ ∀ res, r = Return res → assigned req res = None.
Proof.
  intros Hl.
  destruct (unloaded_fault ToNumber d e req Hl) as [->|(res & -> & Hs)].
  - eexists. split; [done|]. by intros ? [=].
  - eexists. split; [done|]. intros ? [= <-].
    destruct req; try done. simpl. destruct res as [s b]. simpl in Hs.
    by subst s.
Qed.

(** C10. [GET /todos] and [GET /todos/:id] leave the disk as it was,
    whatever the disk and the path parameter, whether they answer or
    fault. *)
Theorem reads_keep_disk (ToNumber : string → number) (param : string)
    (d : disk) :
  (get_todos d).1 = d ∧ (get_todo ToNumber param d).1 = d.
Proof.
  destruct (getListFromFile_cases d) as [[l Hl]|[e He]].
  - split.
    + destruct (app_loaded ToNumber GET_todos d l Hl)
        as [(r & Hr & _)|[(? & ? & _)|[(? & ? & ? & ? & ? & ? & _)
                                      |(? & ? & ? & ? & ? & _)]]];
        try done.
      simpl in Hr. by rewrite Hr.
    + destruct (app_loaded ToNumber (GET_todo param) d l Hl)
        as [(r & Hr & _)|[(? & ? & _)|[(? & ? & ? & ? & ? & ? & _)
                                      |(? & ? & ? & ? & ? & _)]]];
        try done.
      simpl in Hr. by rewrite Hr.
  - split.
    + destruct (app_unloaded ToNumber GET_todos d e He) as (r & Hr & _).
      simpl in Hr. by rewrite Hr.
    + destruct (app_unloaded ToNumber (GET_todo param) d e He) as (r & Hr & _).
      simpl in Hr. by rewrite Hr.
Qed.

(** C9. A [PUT /todos/:id] answered with 200 found the stored list split
    around the first record with the path id and wrote the same list
    with that record replaced in place by the merged record; a
    [DELETE /todos/:id] answered with 200 wrote the same list with that
    record taken out.  The records before it and after it are the same,
    in the same order. *)
Theorem put_delete_frame (ToNumber : string → number) (param : string)
    (newItem : object) (d d' : disk) (res : response) :
  status res = 200 →
  (put_todo ToNumber param newItem d = (d', Return (Some res)) →
   ∃ l1 cur l2,
     getListFromFile d = (d, Return (l1 ++ cur :: l2))
     ∧ strict_eq (id cur) (ToNumber param) = true
     ∧ Forall (λ y, strict_eq (id y) (ToNumber param) = false) l1
     ∧ getListFromFile d'
       = (d', Return (l1 ++ merge_id cur newItem (id cur) :: l2))
     ∧ body res = JsonList (l1 ++ merge_id cur newItem (id cur) :: l2))
  ∧ (delete_todo ToNumber param d = (d', Return (Some res)) →
     ∃ l1 cur l2,
       getListFromFile d = (d, Return (l1 ++ cur :: l2))
       ∧ strict_eq (id cur) (ToNumber param) = true
       ∧ Forall (λ y, strict_eq (id y) (ToNumber param) = false) l1
       ∧ getListFromFile d' = (d', Return (l1 ++ l2))
       ∧ body res = JsonList (l1 ++ l2)).
Proof.
  intros Hs. split; intros Hrun.
  - destruct (getListFromFile_cases d) as [[l Hl]|[e He]].
    + destruct (first_match (λ y, strict_eq (id y) (ToNumber param)) l)
        as [Hno|(l1 & cur & l2 & Heq & Hcur & Hl1)].
      * rewrite (put_todo_absent ToNumber d l Hl param newItem Hno) in Hrun.
        injection Hrun as _ <-. done.
      * rewrite (put_todo_found ToNumber d l Hl param l1 l2 cur Heq Hcur Hl1)
          in Hrun.
        destruct (writable d); [|done]. injection Hrun as <- <-.
        exists l1, cur, l2. subst l. done.
    + destruct (unloaded_fault ToNumber d e (PUT_todo param newItem) He)
        as [Hf|(res' & Hf & Hs')]; simpl in Hf; rewrite Hf in Hrun.
      * done.
      * injection Hrun as _ <-. congruence.
  - destruct (getListFromFile_cases d) as [[l Hl]|[e He]].
    + destruct (first_match (λ y, strict_eq (id y) (ToNumber param)) l)
        as [Hno|(l1 & cur & l2 & Heq & Hcur & Hl1)].
      * rewrite (delete_todo_absent ToNumber d l Hl param Hno) in Hrun.
        injection Hrun as _ <-. done.
      * rewrite (delete_todo_found ToNumber d l Hl param l1 l2 cur Heq Hcur Hl1)
          in Hrun.
        destruct (writable d); [|done]. injection Hrun as <- <-.
        exists l1, cur, l2. subst l. done.
    + destruct (unloaded_fault ToNumber d e (DELETE_todo param) He)
        as [Hf|(res' & Hf & Hs')]; simpl in Hf; rewrite Hf in Hrun.
      * done.
      * injection Hrun as _ <-. congruence.
Qed.

Lemma put_delete_frame_witness :
  (∃ l1 cur l2,
     getListFromFile two_store = (two_store, Return (l1 ++ cur :: l2))
     ∧ strict_eq (id cur) (decimal "1") = true
     ∧ getListFromFile (put_todo decimal "1" done_with_id two_store).1
       = ((put_todo decimal "1" done_with_id two_store).1,
          Return (l1 ++ merge_id cur done_with_id (id cur) :: l2)))
  ∧ (∃ l1 cur l2,
       getListFromFile two_store = (two_store, Return (l1 ++ cur :: l2))
       ∧ strict_eq (id cur) (decimal "1") = true
       ∧ getListFromFile (delete_todo decimal "1" two_store).1
         = ((delete_todo decimal "1" two_store).1, Return (l1 ++ l2))).
Proof.
  split.
  - destruct (proj1 (put_delete_frame decimal "1" done_with_id two_store
                       (put_todo decimal "1" done_with_id two_store).1
                       {| status := 200;
                          body := JsonList
                            (<[0%nat := merge_id {| id := 1; props := title_A |}
                                          done_with_id 1]> two_todos) |}
                       eq_refl) eq_refl)
      as (l1 & cur & l2 & H1 & H2 & _ & H3 & _).
    by exists l1, cur, l2.
  - destruct (proj2 (put_delete_frame decimal "1" ∅ two_store
                       (delete_todo decimal "1" two_store).1
                       {| status := 200;
                          body := JsonList (delete 0%nat two_todos) |}
                       eq_refl) eq_refl)
      as (l1 & cur & l2 & H1 & H2 & _ & H3 & _).
    by exists l1, cur, l2.
Defined.

(** C6, as stated, fails: the store holds one record, so its ids are
    pairwise distinct, but that id is 2^53 and a creation writes a
    second record with the id 2^53. *)
Lemma creation_repeats_2_53 :
  let d' := (app decimal (POST_todos title_A) big_store).1 in
  getListFromFile big_store = (big_store, Return big_todos)
  ∧ NoDup (id <$> big_todos)
  ∧ ∃ l', getListFromFile d' = (d', Return l')
          ∧ id <$> l' = [2 ^ 53; 2 ^ 53]
          ∧ ¬ NoDup (id <$> l').
Proof.
  split; [done|]. split; [by apply (bool_decide_unpack _)|].
  exists (big_todos ++ [spread_id title_A (generateNewId big_todos)]).
  split; [by vm_compute|].
  assert (id <$> big_todos ++ [spread_id title_A (generateNewId big_todos)]
          = [2 ^ 53; 2 ^ 53]) as Hids by (by vm_compute).
  split; [exact Hids|]. rewrite Hids.
  intros [Hin _]%NoDup_cons. apply Hin, list_elem_of_here.
Qed.

(** C6, amended.  If the ids of the stored list are pairwise distinct
    and, when the request is a creation, below 2^53, then after the
    request (a creation, an update, a deletion or any other) the store
    still holds a list, and the ids of that list are pairwise
    distinct. *)
Theorem unique_ids_preserved (ToNumber : string → number) (req : request)
    (d : disk) (l : list todo) :
  getListFromFile d = (d, Return l) →
  NoDup (id <$> l) →
  (∀ newItem, req = POST_todos newItem → Forall (λ x, id x < 2 ^ 53) l) →
  let d' := (app ToNumber req d).1 in
  ∃ l', getListFromFile d' = (d', Return l') ∧ NoDup (id <$> l').
Proof.
  intros Hl Hnd Hlt d'. subst d'.
  destruct (app_loaded ToNumber req d l Hl)
    as [(r & Hr & _)
       |[(newItem & Hreq & Hr)
        |[(param & newItem & l1 & cur & l2 & _ & -> & Hcur & _ & Hr)
         |(param & l1 & cur & l2 & _ & -> & Hcur & _ & Hr)]]];
    rewrite Hr; simpl.
  - by exists l.
  - eexists. split; [done|]. rewrite fmap_app. simpl.
    apply NoDup_app. split; [done|]. split; [|apply NoDup_singleton].
    intros n Hn ->%list_elem_of_singleton.
    apply (generateNewId_fresh l); [|done].
    apply Forall_forall. by apply (Hlt newItem).
  - eexists. split; [done|]. by rewrite fmap_app in *.
  - eexists. split; [done|]. rewrite fmap_app in *. simpl in Hnd.
    apply NoDup_app in Hnd as (Hn1 & Hdisj & [_ Hn2]%NoDup_cons).
    apply NoDup_app. split; [done|]. split; [|done].
    intros n Hn Hn'. apply (Hdisj n Hn). by apply list_elem_of_further.
Qed.

Lemma unique_ids_preserved_witness :
  (∃ l', getListFromFile (post_todos title_A two_store).1
         = ((post_todos title_A two_store).1, Return l')
         ∧ NoDup (id <$> l'))
  ∧ (∃ l', getListFromFile (put_todo decimal "5" done_with_id two_store).1
           = ((put_todo decimal "5" done_with_id two_store).1, Return l')
           ∧ NoDup (id <$> l'))
  ∧ (∃ l', getListFromFile (delete_todo decimal "5" two_store).1
           = ((delete_todo decimal "5" two_store).1, Return l')
           ∧ NoDup (id <$> l')).
Proof.
  split; [|split].
  - apply (unique_ids_preserved decimal (POST_todos title_A) two_store
             two_todos); [reflexivity | by apply (bool_decide_unpack _) |].
    intros _ _. by apply (bool_decide_unpack _).
  - apply (unique_ids_preserved decimal (PUT_todo "5" done_with_id) two_store
             two_todos); [reflexivity | by apply (bool_decide_unpack _) |].
    intros newItem [=].
  - apply (unique_ids_preserved decimal (DELETE_todo "5") two_store
             two_todos); [reflexivity | by apply (bool_decide_unpack _) |].
    intros newItem [=].
Defined.

(** ** Requests in sequence *)

(** One answered request on a store that loads and holds only ids below
    2^53, when it spares the greatest id: the store still loads, a
    creation is assigned the greatest id plus 1, which becomes the
    greatest id, and any other request leaves the greatest id as it
    was. *)
Lemma app_next_id (ToNumber : string → number) (req : request) (d d' : disk)
    (l : list todo) (res : option response) :
  getListFromFile d = (d, Return l) →
  spares_greatest ToNumber req d = true →
  ids_exact d = true →
  app ToNumber req d = (d', Return res) →
  ∃ l', getListFromFile d' = (d', Return l')
        ∧ match assigned req res with
          | Some n => n = greatest_id l + 1 ∧ greatest_id l' = n
          | None => greatest_id l' = greatest_id l
          end.
Proof.
  intros Hl Hsp Hex Happ.
  assert (∀ x, x ∈ l → id x < 2 ^ 53) as Hlt.
  { unfold ids_exact in Hex. rewrite Hl in Hex.
    rewrite forallb_forall in Hex. intros x Hx.
    by apply Z.ltb_lt, Hex, list_elem_of_In. }
  destruct (app_loaded ToNumber req d l Hl)
    as [(r & Hr & Hnone)
       |[(newItem & -> & Hr)
        |[(param & newItem & l1 & cur & l2 & -> & -> & Hcur & _ & Hr)
         |(param & l1 & cur & l2 & -> & -> & Hcur & _ & Hr)]]];
    rewrite Hr in Happ.
  - injection Happ as <- ->. exists l. split; [done|].
    by rewrite (Hnone res eq_refl).
  - injection Happ as <- <-. eexists. split; [done|].
    simpl. rewrite last_snoc. simpl.
    split; [by apply generateNewId_exact|].
    rewrite (generateNewId_exact l Hlt).
    apply (greatest_id_push l newItem). lia.
  - injection Happ as <- <-. eexists. split; [done|]. simpl.
    apply greatest_id_same_ids. intros n. by rewrite !fmap_app.
  - injection Happ as <- <-. eexists. split; [done|]. simpl.
    unfold spares_greatest in Hsp. rewrite Hl in Hsp.
    rewrite forallb_forall in Hsp.
    assert (cur ∈ l1 ++ cur :: l2) as Hin.
    { apply elem_of_app. right. apply list_elem_of_here. }
    pose proof (Hsp cur (proj1 (list_elem_of_In _ _) Hin)) as Hgt.
    rewrite Hcur in Hgt. simpl in Hgt.
    apply existsb_exists in Hgt as (y & Hy%list_elem_of_In & Hlty%Z.ltb_lt).
    destruct (proj1 (greatest_id_char (l1 ++ cur :: l2) _) eq_refl)
      as (H0 & Hle & Hat).
    apply greatest_id_char. split; [done|]. split.
    + intros x [Hx|Hx]%elem_of_app; apply Hle, elem_of_app; auto.
      right. by apply list_elem_of_further.
    + destruct Hat as [?|(x & Hx & Heq)]; [by left|]. right.
      exists x. split; [|done].
      apply elem_of_app in Hx as [Hx|[->|Hx]%elem_of_cons];
        [apply elem_of_app; by left | | apply elem_of_app; by right].
      specialize (Hle y Hy). lia.
Qed.

Lemma serve_unloaded (ToNumber : string → number) (reqs : list request)
    (d : disk) (e : error) :
  getListFromFile d = (d, Throw e) →
  assigned_ids (serve ToNumber reqs d) = [].
Proof.
  intros Hl. induction reqs as [|req reqs IH]; simpl; [done|].
  destruct (app_unloaded ToNumber req d e Hl) as (r & -> & Hnone).
  destruct r as [res|]; [|done].
  unfold assigned_ids in *. simpl. by rewrite (Hnone res eq_refl).
Qed.

Lemma serve_from_next_id (ToNumber : string → number) (reqs : list request) :
  ∀ (d : disk) (l : list todo),
    getListFromFile d = (d, Return l) →
    Forall (λ entry, spares_greatest ToNumber entry.1.2 entry.1.1 = true
                     ∧ ids_exact entry.1.1 = true)
           (serve ToNumber reqs d) →
    Forall (λ n, greatest_id l < n) (assigned_ids (serve ToNumber reqs d))
    ∧ StronglySorted Z.lt (assigned_ids (serve ToNumber reqs d)).
Proof.
  induction reqs as [|req reqs IH]; intros d l Hl Hsp; simpl in *.
  { split; constructor. }
  destruct (app ToNumber req d) as [d' [res|e]] eqn:Happ;
    [|split; constructor].
  apply Forall_cons in Hsp as [[Hreq Hex] Hrest]. simpl in Hreq, Hex.
  destruct (app_next_id ToNumber req d d' l res Hl Hreq Hex Happ)
    as (l' & Hl' & Hnext).
  destruct (IH d' l' Hl' Hrest) as [Hge Hsorted].
  unfold assigned_ids in *. simpl.
  destruct (assigned req res) as [n|]; simpl.
  - destruct Hnext as [-> Hn]. rewrite Hn in Hge. split.
    + constructor; [lia|]. eapply Forall_impl; [exact Hge|].
      intros m Hm. simpl in Hm. lia.
    + constructor; [done|]. exact Hge.
  - rewrite Hnext in Hge. done.
Qed.

Lemma increasing_NoDup (ns : list Z) : StronglySorted Z.lt ns → NoDup ns.
Proof.
  induction 1 as [|n ns _ IH Hall]; constructor; [|done].
  intros Hn. rewrite Forall_forall in Hall. specialize (Hall n Hn). lia.
Qed.

(** C5, as stated, fails: create, delete the record just created, create
    again; both creations are assigned the id 1. *)
Lemma assigned_id_reused :
  let ids :=
    assigned_ids
      (serve decimal
         [POST_todos title_A; DELETE_todo "1"; POST_todos title_B]
         empty_store) in
  ids = [1; 1] ∧ ¬ NoDup ids.
Proof.
  assert (assigned_ids
            (serve decimal
               [POST_todos title_A; DELETE_todo "1"; POST_todos title_B]
               empty_store) = [1; 1]) as Hids by (by vm_compute).
  cbv zeta. rewrite Hids. split; [done|].
  intros [Hin _]%NoDup_cons. apply Hin, list_elem_of_here.
Qed.

(** The ids also repeat with no deletion at all once they reach 2^53:
    two creations on the store whose one record has the id 2^53 are
    both assigned 2^53. *)
Lemma assigned_id_stuck_at_2_53 :
  assigned_ids
    (serve decimal [POST_todos title_A; POST_todos title_B] big_store)
  = [2 ^ 53; 2 ^ 53].
Proof. by vm_compute. Qed.

(** C5, amended.  For every sequence of requests served one after the
    other in which no deletion removes a record with the greatest id of
    the list (each record a deletion matches has a record with a greater
    id beside it) and every request finds only ids below 2^53 in the
    store, the ids assigned to the creations are strictly increasing,
    hence pairwise distinct. *)
Theorem assigned_ids_increasing (ToNumber : string → number)
    (reqs : list request) (d : disk) :
  Forall (λ entry, spares_greatest ToNumber entry.1.2 entry.1.1 = true
                   ∧ ids_exact entry.1.1 = true)
         (serve ToNumber reqs d) →
  StronglySorted Z.lt (assigned_ids (serve ToNumber reqs d))
  ∧ NoDup (assigned_ids (serve ToNumber reqs d)).
Proof.
  intros Hsp.
  assert (StronglySorted Z.lt (assigned_ids (serve ToNumber reqs d))) as Hs.
  { destruct (getListFromFile_cases d) as [[l Hl]|[e He]].
    - by apply (serve_from_next_id ToNumber reqs d l).
    - rewrite (serve_unloaded ToNumber reqs d e He). constructor. }
  split; [done | by apply increasing_NoDup].
Qed.

Lemma assigned_ids_increasing_witness :
  let ids :=
    assigned_ids
      (serve decimal
         [POST_todos title_A; POST_todos title_B; DELETE_todo "1";
          POST_todos title_A]
         empty_store) in
  ids = [1; 2; 3] ∧ StronglySorted Z.lt ids ∧ NoDup ids.
Proof.
  split; [by vm_compute|].
  apply (assigned_ids_increasing decimal).
  by apply (bool_decide_unpack _).
Defined.

(** * Further properties of the service *)

(** ** What one request can do *)

(** Every request ends in one of five ways: a fault that leaves the disk
    as it was; a 404 whose body is no list, the disk as it was; the
    stored list from [GET /todos]; a record from [GET /todos/:id]; or a
    list written to the disk and sent, by a creation with 201 or by an
    update or a deletion with 200. *)
Lemma app_outcome (ToNumber : string → number) (req : request) (d : disk) :
  (∃ e, app ToNumber req d = (d, Throw e))
  ∨ (∃ res, app ToNumber req d = (d, Return (Some res))
            ∧ status res = 404 ∧ ∀ L, body res ≠ JsonList L)
  ∨ (∃ l, getListFromFile d = (d, Return l) ∧ req = GET_todos
          ∧ app ToNumber req d
            = (d, Return (Some {| status := 200; body := JsonList l |})))
  ∨ (∃ param item, req = GET_todo param
          ∧ app ToNumber req d
            = (d, Return (Some {| status := 200; body := JsonItem item |})))
  ∨ (∃ l' res, app ToNumber req d = (written l', Return (Some res))
          ∧ body res = JsonList l'
          ∧ ((status res = 201 ∧ ∃ newItem, req = POST_todos newItem)
             ∨ (status res = 200
                ∧ ((∃ param newItem, req = PUT_todo param newItem)
                   ∨ ∃ param, req = DELETE_todo param)))).
Proof.
  destruct (getListFromFile_cases d) as [[l Hl]|[e He]].
  - destruct req as [|param|newItem|param newItem|param|]; simpl.
    + right. right. left. exists l. by rewrite (get_todos_loaded d l Hl).
    + destruct (first_match (λ y, strict_eq (id y) (ToNumber param)) l)
        as [Hno|(l1 & cur & l2 & Heq & Hcur & Hl1)].
      * right. left. eexists.
        split; [by apply (get_todo_absent ToNumber d l)|]. done.
      * right. right. right. left. exists param, cur.
        split; [done|]. by apply (get_todo_found ToNumber d l Hl param l1 l2).
    + destruct (truthy (newItem !! "title"%string)) eqn:Ht.
      * rewrite (post_todos_loaded d l Hl newItem Ht).
        destruct (writable d); [|left; by eexists].
        do 4 right. eexists _, _. split; [done|]. split; [done|].
        left. split; [done|]. by exists newItem.
      * right. left. unfold post_todos. rewrite Ht. simpl.
        eexists. split; [done|]. done.
    + destruct (first_match (λ y, strict_eq (id y) (ToNumber param)) l)
        as [Hno|(l1 & cur & l2 & Heq & Hcur & Hl1)].
      * right. left. eexists.
        split; [by apply (put_todo_absent ToNumber d l)|]. done.
      * rewrite (put_todo_found ToNumber d l Hl param l1 l2 cur Heq Hcur Hl1).
        destruct (writable d); [|left; by eexists].
        do 4 right. eexists _, _. split; [done|]. split; [done|].
        right. split; [done|]. left. by exists param, newItem.
    + destruct (first_match (λ y, strict_eq (id y) (ToNumber param)) l)
        as [Hno|(l1 & cur & l2 & Heq & Hcur & Hl1)].
      * right. left. eexists.
        split; [by apply (delete_todo_absent ToNumber d l)|]. done.
      * rewrite (delete_todo_found ToNumber d l Hl param l1 l2 cur Heq Hcur Hl1).
        destruct (writable d); [|left; by eexists].
        do 4 right. eexists _, _. split; [done|]. split; [done|].
        right. split; [done|]. right. by exists param.
    + right. left. eexists. split; [done|]. done.
  - destruct req as [|param|newItem|param newItem|param|]; simpl.
    + left. exists e. unfold get_todos. run_io. by rewrite He.
    + left. exists e. unfold get_todo. run_io. by rewrite He.
    + unfold post_todos. destruct (truthy (newItem !! "title"%string)); simpl.
      * left. exists e. run_io. by rewrite He.
      * right. left. eexists. split; [done|]. done.
    + left. exists e. unfold put_todo. run_io. by rewrite He.
    + left. exists e. unfold delete_todo. run_io. by rewrite He.
    + right. left. eexists. split; [done|]. done.
Qed.

(** X1. A request that is not answered with a fault is answered: no
    request is left without a response, and the status sent is 200, 201
    or 404. *)
Theorem always_answered (ToNumber : string → number) (req : request)
    (d : disk) (r : option response) :
  (app ToNumber req d).2 = Return r →
  ∃ res, r = Some res ∧ (status res = 200 ∨ status res = 201 ∨ status res = 404).
Proof.
  intros Hr.
  destruct (app_outcome ToNumber req d)
    as [(e & H)|[(res & H & Hs & _)|[(l & _ & _ & H)|[(p & item & _ & H)
       |(l' & res & H & _ & Hs)]]]];
    rewrite H in Hr; simpl in Hr; try done; injection Hr as <-;
    eexists; (split; [done|]); simpl; auto.
  destruct Hs as [[-> _]|[-> _]]; auto.
Qed.

Lemma always_answered_witness :
  (∃ res, (app decimal (POST_todos title_A) two_store).2 = Return (Some res)
          ∧ status res = 201)
  ∧ (∃ res, (app decimal (PUT_todo "5" done_with_id) two_store).2
            = Return (Some res)
            ∧ status res = 200)
  ∧ (∃ res, (app decimal (DELETE_todo "1") two_store).2 = Return (Some res)
            ∧ status res = 200)
  ∧ (∃ res, (app decimal (GET_todo "7") two_store).2 = Return (Some res)
            ∧ status res = 404)
  ∧ (∃ res, (app decimal GET_todos two_store).2 = Return (Some res)
            ∧ status res = 200).
Proof.
  split; [|split; [|split; [|split]]].
  - destruct (always_answered decimal (POST_todos title_A) two_store _ eq_refl)
      as (res & Hres & _).
    exists res. split; [exact (f_equal Return Hres)|].
    by injection Hres as <-.
  - destruct (always_answered decimal (PUT_todo "5" done_with_id) two_store
                _ eq_refl) as (res & Hres & _).
    exists res. split; [exact (f_equal Return Hres)|].
    by injection Hres as <-.
  - destruct (always_answered decimal (DELETE_todo "1") two_store _ eq_refl)
      as (res & Hres & _).
    exists res. split; [exact (f_equal Return Hres)|].
    by injection Hres as <-.
  - destruct (always_answered decimal (GET_todo "7") two_store _ eq_refl)
      as (res & Hres & _).
    exists res. split; [exact (f_equal Return Hres)|].
    by injection Hres as <-.
  - destruct (always_answered decimal GET_todos two_store _ eq_refl)
      as (res & Hres & _).
    exists res. split; [exact (f_equal Return Hres)|].
    by injection Hres as <-.
Defined.

(** X2. The disk changes only when a creation is answered with 201 or an
    update or a deletion with 200, and then it holds the very list that
    is sent: a 404, a fault or a read never changes it. *)
Theorem written_only_on_success (ToNumber : string → number) (req : request)
    (d : disk) :
  (app ToNumber req d).1 ≠ d →
  ∃ l' res,
    app ToNumber req d = (written l', Return (Some res))
    ∧ body res = JsonList l'
    ∧ ((status res = 201 ∧ ∃ newItem, req = POST_todos newItem)
       ∨ (status res = 200
          ∧ ((∃ param newItem, req = PUT_todo param newItem)
             ∨ ∃ param, req = DELETE_todo param))).
Proof.
  intros Hd.
  destruct (app_outcome ToNumber req d)
    as [(e & H)|[(res & H & _)|[(l & _ & _ & H)|[(p & item & _ & H)
       |(l' & res & H & Hb & Hs)]]]];
    try (by rewrite H in Hd).
  by exists l', res.
Qed.

Lemma written_only_on_success_witness :
  ∃ l' res,
    app decimal (DELETE_todo "1") two_store = (written l', Return (Some res))
    ∧ body res = JsonList l'
    ∧ ((status res = 201 ∧ ∃ newItem, DELETE_todo "1" = POST_todos newItem)
       ∨ (status res = 200
          ∧ ((∃ param newItem, DELETE_todo "1" = PUT_todo param newItem)
             ∨ ∃ param, DELETE_todo "1" = DELETE_todo param))).
Proof.
  apply (written_only_on_success decimal (DELETE_todo "1") two_store).
  simpl. intros [=].
Defined.

(** X3. Whenever a request is answered with a list, that list is the one
    the store holds afterwards: the next [GET /todos] answers 200 with
    the same list. *)
Theorem list_sent_is_stored (ToNumber : string → number) (req : request)
    (d d' : disk) (res : response) (L : list todo) :
  app ToNumber req d = (d', Return (Some res)) →
  body res = JsonList L →
  get_todos d' = (d', Return (Some {| status := 200; body := JsonList L |})).
Proof.
  intros Happ Hb.
  destruct (app_outcome ToNumber req d)
    as [(e & H)|[(res' & H & _ & Hno)|[(l & Hl & _ & H)|[(p & item & _ & H)
       |(l' & res' & H & Hb' & _)]]]];
    rewrite H in Happ; try done; injection Happ as <- <-.
  - by destruct (Hno L).
  - simpl in Hb. injection Hb as <-. by apply get_todos_loaded.
  - done.
  - rewrite Hb' in Hb. injection Hb as <-.
    by apply get_todos_loaded, getListFromFile_written.
Qed.

Lemma list_sent_is_stored_witness :
  let after := two_todos ++ [spread_id title_A 6] in
  get_todos (written after)
  = (written after, Return (Some {| status := 200; body := JsonList after |})).
Proof.
  apply (list_sent_is_stored decimal (POST_todos title_A) two_store
           (written (two_todos ++ [spread_id title_A 6]))
           {| status := 201;
              body := JsonList (two_todos ++ [spread_id title_A 6]) |});
    reflexivity.
Defined.

(** ** Faults *)

(** X4. When the store file cannot be written, a creation with a truthy
    title, and an update or a deletion of a record that exists, fault
    with the write error: nothing is answered and the disk stays as it
    was. *)
Theorem write_refused (ToNumber : string → number) (param : string)
    (newItem : object) (d : disk) (l : list todo) :
  writable d = false →
  getListFromFile d = (d, Return l) →
  (truthy (newItem !! "title"%string) = true →
   post_todos newItem d = (d, Throw EACCES))
  ∧ ((∃ x, x ∈ l ∧ strict_eq (id x) (ToNumber param) = true) →
     put_todo ToNumber param newItem d = (d, Throw EACCES)
     ∧ delete_todo ToNumber param d = (d, Throw EACCES)).
Proof.
  intros Hw Hl. split.
  - intros Ht. rewrite (post_todos_loaded d l Hl newItem Ht). by rewrite Hw.
  - intros (x & Hx & Hm).
    destruct (first_match (λ y, strict_eq (id y) (ToNumber param)) l)
      as [Hno|(l1 & cur & l2 & Heq & Hcur & Hl1)].
    { rewrite (Hno x Hx) in Hm. discriminate. }
    rewrite (put_todo_found ToNumber d l Hl param l1 l2 cur Heq Hcur Hl1).
    rewrite (delete_todo_found ToNumber d l Hl param l1 l2 cur Heq Hcur Hl1).
    by rewrite Hw.
Qed.

Lemma write_refused_witness :
  post_todos title_A read_only_store = (read_only_store, Throw EACCES)
  ∧ put_todo decimal "5" title_A read_only_store
    = (read_only_store, Throw EACCES)
  ∧ delete_todo decimal "5" read_only_store = (read_only_store, Throw EACCES).
Proof.
  destruct (write_refused decimal "5" title_A read_only_store two_todos
              eq_refl eq_refl) as [Hpost Hrest].
  split; [by apply Hpost|]. apply Hrest.
  exists {| id := 5; props := title_B |}. split; [|reflexivity].
  unfold two_todos. apply list_elem_of_further, list_elem_of_here.
Defined.

(** X5. When the store does not load (the file is missing, empty or
    malformed), every route that needs the list faults with the
    loader's error: both reads, a creation with a truthy title, an
    update and a deletion are left unanswered, and the disk stays as it
    was. *)
Theorem load_fault (ToNumber : string → number) (param : string)
    (newItem : object) (d : disk) (e : error) :
  getListFromFile d = (d, Throw e) →
  get_todos d = (d, Throw e)
  ∧ get_todo ToNumber param d = (d, Throw e)
  ∧ (truthy (newItem !! "title"%string) = true →
     post_todos newItem d = (d, Throw e))
  ∧ put_todo ToNumber param newItem d = (d, Throw e)
  ∧ delete_todo ToNumber param d = (d, Throw e).
Proof.
  intros He. repeat split.
  - unfold get_todos. run_io. by rewrite He.
  - unfold get_todo. run_io. by rewrite He.
  - intros Ht. unfold post_todos. rewrite Ht. run_io. by rewrite He.
  - unfold put_todo. run_io. by rewrite He.
  - unfold delete_todo. run_io. by rewrite He.
Qed.

Lemma load_fault_witness :
  get_todos no_store = (no_store, Throw ENOENT)
  ∧ get_todo decimal "1" no_store = (no_store, Throw ENOENT)
  ∧ post_todos title_A no_store = (no_store, Throw ENOENT)
  ∧ put_todo decimal "1" title_A no_store = (no_store, Throw ENOENT)
  ∧ delete_todo decimal "1" no_store = (no_store, Throw ENOENT).
Proof.
  destruct (load_fault decimal "1" title_A no_store ENOENT eq_refl)
    as (H1 & H2 & H3 & H4 & H5).
  split; [exact H1|]. split; [exact H2|]. split; [by apply H3|].
  split; [exact H4 | exact H5].
Defined.

(** ** Requests one after the other *)

Lemma put_todo_answered (ToNumber : string → number) (param : string)
    (newItem : object) (d d' : disk) (res : response) :
  put_todo ToNumber param newItem d = (d', Return (Some res)) →
  status res = 200 →
  ∃ l1 cur l2,
    getListFromFile d = (d, Return (l1 ++ cur :: l2))
    ∧ strict_eq (id cur) (ToNumber param) = true
    ∧ Forall (λ y, strict_eq (id y) (ToNumber param) = false) l1
    ∧ d' = written (l1 ++ merge_id cur newItem (id cur) :: l2)
    ∧ res = {| status := 200;
               body := JsonList (l1 ++ merge_id cur newItem (id cur) :: l2) |}.
Proof.
  intros Hrun Hs.
  destruct (getListFromFile_cases d) as [[l Hl]|[e He]].
  - destruct (first_match (λ y, strict_eq (id y) (ToNumber param)) l)
      as [Hno|(l1 & cur & l2 & Heq & Hcur & Hl1)].
    + rewrite (put_todo_absent ToNumber d l Hl param newItem Hno) in Hrun.
      injection Hrun as _ <-. done.
    + rewrite (put_todo_found ToNumber d l Hl param l1 l2 cur Heq Hcur Hl1)
        in Hrun.
      destruct (writable d); [|done]. injection Hrun as <- <-.
      exists l1, cur, l2. subst l. done.
  - destruct (unloaded_fault ToNumber d e (PUT_todo param newItem) He)
      as [Hf|(res' & Hf & Hs')]; simpl in Hf; rewrite Hf in Hrun.
    + done.
    + injection Hrun as _ <-. congruence.
Qed.

Lemma delete_todo_answered (ToNumber : string → number) (param : string)
    (d d' : disk) (res : response) :
  delete_todo ToNumber param d = (d', Return (Some res)) →
  status res = 200 →
  ∃ l1 cur l2,
    getListFromFile d = (d, Return (l1 ++ cur :: l2))
    ∧ strict_eq (id cur) (ToNumber param) = true
    ∧ Forall (λ y, strict_eq (id y) (ToNumber param) = false) l1
    ∧ d' = written (l1 ++ l2)
    ∧ res = {| status := 200; body := JsonList (l1 ++ l2) |}.
Proof.
  intros Hrun Hs.
  destruct (getListFromFile_cases d) as [[l Hl]|[e He]].
  - destruct (first_match (λ y, strict_eq (id y) (ToNumber param)) l)
      as [Hno|(l1 & cur & l2 & Heq & Hcur & Hl1)].
    + rewrite (delete_todo_absent ToNumber d l Hl param Hno) in Hrun.
      injection Hrun as _ <-. done.
    + rewrite (delete_todo_found ToNumber d l Hl param l1 l2 cur Heq Hcur Hl1)
        in Hrun.
      destruct (writable d); [|done]. injection Hrun as <- <-.
      exists l1, cur, l2. subst l. done.
  - destruct (unloaded_fault ToNumber d e (DELETE_todo param) He)
      as [Hf|(res' & Hf & Hs')]; simpl in Hf; rewrite Hf in Hrun.
    + done.
    + injection Hrun as _ <-. congruence.
Qed.

(** X6. On a store whose ids are pairwise distinct, once
    [DELETE /todos/:id] has answered 200 the id is gone: a fetch, an
    update and a second deletion of the same path all answer 404
    [{error: "item not Found"}] and leave the disk as the deletion left
    it. *)
Theorem deleted_id_is_gone (ToNumber : string → number) (param : string)
    (newItem : object) (d d' : disk) (l : list todo) (res : response) :
  getListFromFile d = (d, Return l) →
  NoDup (id <$> l) →
  delete_todo ToNumber param d = (d', Return (Some res)) →
  status res = 200 →
  get_todo ToNumber param d' = not_found d'
  ∧ put_todo ToNumber param newItem d' = not_found d'
  ∧ delete_todo ToNumber param d' = not_found d'.
Proof.
  intros Hl Hnd Hrun Hs.
  destruct (delete_todo_answered ToNumber param d d' res Hrun Hs)
    as (l1 & cur & l2 & Hl' & Hcur & Hl1 & -> & _).
  rewrite Hl in Hl'. injection Hl' as ->.
  assert (∀ x, x ∈ l1 ++ l2 → strict_eq (id x) (ToNumber param) = false)
    as Hno.
  { intros x [Hx|Hx]%elem_of_app.
    - rewrite Forall_forall in Hl1. by apply Hl1.
    - destruct (strict_eq (id x) (ToNumber param)) eqn:Hm; [|done].
      apply strict_eq_Int in Hm. apply strict_eq_Int in Hcur.
      rewrite Hcur in Hm. injection Hm as Hm.
      rewrite fmap_app in Hnd. simpl in Hnd.
      apply NoDup_app in Hnd as (_ & _ & [Hfresh _]%NoDup_cons).
      destruct Hfresh. rewrite Hm. by apply list_elem_of_fmap_2. }
  pose proof (getListFromFile_written (l1 ++ l2) true) as Hw. simpl in Hw.
  split; [|split].
  - by apply (get_todo_absent ToNumber _ (l1 ++ l2)).
  - by apply (put_todo_absent ToNumber _ (l1 ++ l2)).
  - by apply (delete_todo_absent ToNumber _ (l1 ++ l2)).
Qed.

Lemma deleted_id_is_gone_witness :
  let d' := written [ {| id := 1; props := title_A |} ] in
  get_todo decimal "5" d' = not_found d'
  ∧ put_todo decimal "5" title_A d' = not_found d'
  ∧ delete_todo decimal "5" d' = not_found d'.
Proof.
  apply (deleted_id_is_gone decimal "5" title_A two_store
           (written [ {| id := 1; props := title_A |} ]) two_todos
           {| status := 200;
              body := JsonList [ {| id := 1; props := title_A |} ] |});
    [reflexivity | by apply (bool_decide_unpack _) | reflexivity | reflexivity].
Defined.

(** X7. Once [PUT /todos/:id] has answered 200, fetching the same path
    answers 200 with the merge of the body over the record that a fetch
    answered before the update. *)
Theorem update_then_fetch (ToNumber : string → number) (param : string)
    (newItem : object) (d d' : disk) (res : response) :
  put_todo ToNumber param newItem d = (d', Return (Some res)) →
  status res = 200 →
  ∃ cur,
    get_todo ToNumber param d
    = (d, Return (Some {| status := 200; body := JsonItem cur |}))
    ∧ get_todo ToNumber param d'
      = (d', Return (Some {| status := 200;
                             body := JsonItem
                                       (merge_id cur newItem (id cur)) |})).
Proof.
  intros Hrun Hs.
  destruct (put_todo_answered ToNumber param newItem d d' res Hrun Hs)
    as (l1 & cur & l2 & Hl & Hcur & Hl1 & -> & _).
  exists cur. split.
  - by apply (get_todo_found ToNumber d _ Hl param l1 l2).
  - by apply (get_todo_found ToNumber _ _ (getListFromFile_written _ true)
                param l1 l2).
Qed.

Lemma update_then_fetch_witness :
  ∃ cur,
    get_todo decimal "5" two_store
    = (two_store, Return (Some {| status := 200; body := JsonItem cur |}))
    ∧ get_todo decimal "5" (put_todo decimal "5" done_with_id two_store).1
      = ((put_todo decimal "5" done_with_id two_store).1,
         Return (Some {| status := 200;
                         body := JsonItem
                                   (merge_id cur done_with_id (id cur)) |})).
Proof.
  apply (update_then_fetch decimal "5" done_with_id two_store
           (put_todo decimal "5" done_with_id two_store).1
           {| status := 200;
              body := JsonList
                        (<[1%nat := merge_id {| id := 5; props := title_B |}
                                      done_with_id 5]> two_todos) |});
    reflexivity.
Defined.

Lemma merge_id_twice (cur : todo) (newItem : object) (z : Z) :
  merge_id (merge_id cur newItem z) newItem z = merge_id cur newItem z.
Proof.
  unfold merge_id, spread_id. simpl. f_equal. apply map_eq. intros k.
  destruct (decide (k = "id"%string)) as [->|Hk].
  - by rewrite !lookup_delete_eq.
  - rewrite !lookup_delete_ne by done. rewrite !lookup_union.
    rewrite lookup_delete_ne by done. rewrite lookup_union.
    by destruct (newItem !! k), (props cur !! k).
Qed.

(** X8. [PUT /todos/:id] is idempotent: once it has answered 200, the
    same request again gets the same answer and leaves the disk as the
    first one left it. *)
Theorem put_todo_idempotent (ToNumber : string → number) (param : string)
    (newItem : object) (d d' : disk) (res : response) :
  put_todo ToNumber param newItem d = (d', Return (Some res)) →
  status res = 200 →
  put_todo ToNumber param newItem d' = (d', Return (Some res)).
Proof.
  intros Hrun Hs.
  destruct (put_todo_answered ToNumber param newItem d d' res Hrun Hs)
    as (l1 & cur & l2 & Hl & Hcur & Hl1 & -> & ->).
  rewrite (put_todo_found ToNumber _ _ (getListFromFile_written _ true)
             param l1 l2 (merge_id cur newItem (id cur)) eq_refl Hcur Hl1).
  simpl. by rewrite merge_id_twice.
Qed.

Lemma put_todo_idempotent_witness :
  let d' := (put_todo decimal "5" done_with_id two_store).1 in
  put_todo decimal "5" done_with_id d'
  = (d', (put_todo decimal "5" done_with_id two_store).2).
Proof.
  apply (put_todo_idempotent decimal "5" done_with_id two_store
           (put_todo decimal "5" done_with_id two_store).1
           {| status := 200;
              body := JsonList
                        (<[1%nat := merge_id {| id := 5; props := title_B |}
                                      done_with_id 5]> two_todos) |});
    reflexivity.
Defined.

Lemma serve_cons (ToNumber : string → number) (req : request)
    (rest : list request) (d : disk) :
  serve ToNumber (req :: rest) d
  = match app ToNumber req d with
    | (d', Return res) => (d, req, res) :: serve ToNumber rest d'
    | (_, Throw _) => []
    end.
Proof. done. Qed.

Lemma assigned_ids_cons (d : disk) (req : request) (res : option response)
    (log : list (disk * request * option response)) :
  assigned_ids ((d, req, res) :: log)
  = match assigned req res with
    | Some n => n :: assigned_ids log
    | None => assigned_ids log
    end.
Proof. done. Qed.

Lemma post_todos_created (newItem : object) (d : disk) (l : list todo) :
  truthy (newItem !! "title"%string) = true →
  getListFromFile d = (d, Return l) →
  writable d = true →
  let list' := Array.push l (spread_id newItem (generateNewId l)) in
  post_todos newItem d
  = (written list', Return (Some {| status := 201; body := JsonList list' |}))
  ∧ assigned (POST_todos newItem)
      (Some {| status := 201; body := JsonList list' |})
    = Some (generateNewId l).
Proof.
  intros Ht Hl Hw. simpl.
  rewrite (post_todos_loaded d l Hl newItem Ht), Hw.
  split; [done|]. unfold Array.push. by rewrite last_snoc.
Qed.

(** X9. On a store that holds only ids below 2^53, a creation followed
    by the deletion of the id it was assigned puts the stored list back
    as it was, so the next creation is assigned that same id again. *)
Theorem create_then_delete (ToNumber : string → number) (first second : object)
    (d : disk) (l : list todo) (param : string) :
  truthy (first !! "title"%string) = true →
  truthy (second !! "title"%string) = true →
  getListFromFile d = (d, Return l) →
  writable d = true →
  Forall (λ x, id x < 2 ^ 53) l →
  ToNumber param = Int (generateNewId l) →
  delete_todo ToNumber param (post_todos first d).1
  = (written l, Return (Some {| status := 200; body := JsonList l |}))
  ∧ assigned_ids
      (serve ToNumber [POST_todos first; DELETE_todo param; POST_todos second] d)
    = [generateNewId l; generateNewId l].
Proof.
  intros Ht1 Ht2 Hl Hw Hlt Hn. rewrite Forall_forall in Hlt.
  destruct (post_todos_created first d l Ht1 Hl Hw) as [Hpost Hid1].
  destruct (post_todos_created second (written l) l Ht2
              (getListFromFile_written l true) eq_refl) as [Hpost2 Hid2].
  simpl in Hpost, Hpost2.
  assert (delete_todo ToNumber param
            (written (Array.push l (spread_id first (generateNewId l))))
          = (written l, Return (Some {| status := 200; body := JsonList l |})))
    as Hdel.
  { assert (strict_eq (id (spread_id first (generateNewId l)))
              (ToNumber param) = true) as Hm.
    { rewrite Hn. simpl. apply Z.eqb_refl. }
    assert (Forall (λ y, strict_eq (id y) (ToNumber param) = false) l) as Hno.
    { rewrite Hn. apply Forall_forall. intros y Hy. simpl.
      apply (generateNewId_gt l y Hlt) in Hy. apply Z.eqb_neq. lia. }
    pose proof (delete_todo_found ToNumber _ _
                  (getListFromFile_written
                     (l ++ [spread_id first (generateNewId l)]) true)
                  param l [] _ eq_refl Hm Hno) as Hd.
    simpl in Hd. rewrite app_nil_r in Hd. exact Hd. }
  split.
  - by rewrite Hpost.
  - rewrite serve_cons. simpl app. rewrite Hpost.
    rewrite serve_cons. simpl app. rewrite Hdel.
    rewrite serve_cons. simpl app. rewrite Hpost2.
    rewrite !assigned_ids_cons, Hid1, Hid2. done.
Qed.

Lemma create_then_delete_witness :
  delete_todo decimal "6" (post_todos title_A two_store).1
  = (written two_todos,
     Return (Some {| status := 200; body := JsonList two_todos |}))
  ∧ assigned_ids
      (serve decimal
         [POST_todos title_A; DELETE_todo "6"; POST_todos title_B] two_store)
    = [6; 6].
Proof.
  apply (create_then_delete decimal title_A title_B two_store two_todos "6");
    try reflexivity.
  by apply (bool_decide_unpack _).
Defined.

Lemma creations_from_greatest (ToNumber : string → number)
    (bodies : list object) :
  ∀ (d : disk) (l : list todo),
    getListFromFile d = (d, Return l) →
    writable d = true →
    Forall (λ b : object, truthy (b !! "title"%string) = true) bodies →
    greatest_id l + Z.of_nat (length bodies) ≤ 2 ^ 53 →
    assigned_ids (serve ToNumber (POST_todos <$> bodies) d)
    = seqZ (greatest_id l + 1) (Z.of_nat (length bodies)).
Proof.
  induction bodies as [|b bodies IH]; intros d l Hl Hw Ht Hroom.
  { done. }
  apply Forall_cons in Ht as [Hb Ht].
  assert (∀ x, x ∈ l → id x < 2 ^ 53) as Hlt.
  { intros x Hx. pose proof (greatest_id_ge l x Hx). simpl length in Hroom. lia. }
  destruct (post_todos_created b d l Hb Hl Hw) as [Hpost Hid].
  simpl in Hpost.
  rewrite fmap_cons, serve_cons. simpl app. rewrite Hpost.
  rewrite assigned_ids_cons, Hid.
  rewrite (IH (written (Array.push l (spread_id b (generateNewId l)))) _
             (getListFromFile_written _ true) eq_refl Ht).
  - rewrite (generateNewId_exact l Hlt).
    rewrite (greatest_id_push l b (greatest_id l + 1)) by lia.
    rewrite (seqZ_cons (greatest_id l + 1)) by (simpl; lia).
    f_equal. f_equal. simpl length. lia.
  - rewrite (generateNewId_exact l Hlt).
    rewrite (greatest_id_push l b (greatest_id l + 1)) by lia.
    simpl length in Hroom. lia.
Qed.

(** X10. Creations served one after the other on a store that loads and
    can be written, each with a truthy title, are assigned consecutive
    ids, starting at the id [generateNewId] gives for the stored list,
    as long as there is room below 2^53 for them: from the empty list,
    1, 2, 3 and so on. *)
Theorem creations_count_up (ToNumber : string → number)
    (bodies : list object) (d : disk) (l : list todo) :
  getListFromFile d = (d, Return l) →
  writable d = true →
  Forall (λ b : object, truthy (b !! "title"%string) = true) bodies →
  Forall (λ x, id x + Z.of_nat (length bodies) ≤ 2 ^ 53) l →
  Z.of_nat (length bodies) ≤ 2 ^ 53 →
  assigned_ids (serve ToNumber (POST_todos <$> bodies) d)
  = seqZ (generateNewId l) (Z.of_nat (length bodies)).
Proof.
  intros Hl Hw Ht Hroom Hlen. rewrite Forall_forall in Hroom.
  destruct bodies as [|b bodies]; [done|].
  assert (∀ x, x ∈ l → id x < 2 ^ 53) as Hlt.
  { intros x Hx. specialize (Hroom x Hx). simpl length in Hroom. lia. }
  rewrite (generateNewId_exact l Hlt).
  apply creations_from_greatest; try done.
  destruct (proj1 (greatest_id_char l _) eq_refl)
    as (_ & _ & [->|(x & Hx & <-)]); [lia | by apply Hroom].
Qed.

Lemma creations_count_up_witness :
  assigned_ids
    (serve decimal (POST_todos <$> [title_A; title_B; title_A]) empty_store)
  = [1; 2; 3]
  ∧ assigned_ids
      (serve decimal (POST_todos <$> [title_A; title_B; title_A]) two_store)
    = [6; 7; 8].
Proof.
  split.
  - apply (creations_count_up decimal [title_A; title_B; title_A] empty_store
             []);
      [reflexivity | reflexivity | by apply (bool_decide_unpack _)
      | constructor | by vm_compute].
  - apply (creations_count_up decimal [title_A; title_B; title_A] two_store
             two_todos);
      [reflexivity | reflexivity | by apply (bool_decide_unpack _)
      | by apply (bool_decide_unpack _) | by vm_compute].
Defined.

Lemma greatest_id_subset (l l' : list todo) :
  (∀ x, x ∈ l' → x ∈ l) → greatest_id l' ≤ greatest_id l.
Proof.
  intros Hsub.
  destruct (proj1 (greatest_id_char l' _) eq_refl)
    as (_ & _ & [->|(x & Hx & <-)]).
  - apply greatest_id_nonneg.
  - by apply greatest_id_ge, Hsub.
Qed.

Lemma app_keeps_data_model (ToNumber : string → number) (req : request)
    (d : disk) (l : list todo) :
  getListFromFile d = (d, Return l) →
  NoDup (id <$> l) →
  Forall (λ x, 0 < id x) l →
  (∀ x, x ∈ l → id x < 2 ^ 53) →
  ∃ l', getListFromFile (app ToNumber req d).1
        = ((app ToNumber req d).1, Return l')
        ∧ NoDup (id <$> l') ∧ Forall (λ x, 0 < id x) l'
        ∧ greatest_id l' ≤ greatest_id l + 1.
Proof.
  intros Hl Hnd Hpos Hlt.
  destruct (app_loaded ToNumber req d l Hl)
    as [(r & Hr & _)
       |[(newItem & _ & Hr)
        |[(param & newItem & l1 & cur & l2 & _ & -> & Hcur & _ & Hr)
         |(param & l1 & cur & l2 & _ & -> & Hcur & _ & Hr)]]];
    rewrite Hr; simpl.
  - exists l. repeat split; try done. lia.
  - eexists. split; [done|]. split; [|split].
    + rewrite fmap_app. simpl.
      apply NoDup_app. split; [done|]. split; [|apply NoDup_singleton].
      intros n Hn ->%list_elem_of_singleton.
      by apply (generateNewId_fresh l).
    + apply Forall_app. split; [done|].
      constructor; [|constructor]. simpl. by apply generateNewId_pos.
    + rewrite (generateNewId_exact l Hlt).
      pose proof (greatest_id_push l newItem (greatest_id l + 1)) as Hp.
      unfold Array.push in Hp. rewrite Hp; lia.
  - eexists. split; [done|]. split; [|split].
    + by rewrite fmap_app in *.
    + apply Forall_app in Hpos as [H1 [Hc H2]%Forall_cons].
      apply Forall_app. split; [done|]. by constructor.
    + rewrite (greatest_id_same_ids (l1 ++ merge_id cur newItem (id cur) :: l2)
                 (l1 ++ cur :: l2)); [lia|].
      intros n. by rewrite !fmap_app.
  - eexists. split; [done|]. split; [|split].
    + rewrite fmap_app in *. simpl in Hnd.
      apply NoDup_app in Hnd as (Hn1 & Hdisj & [_ Hn2]%NoDup_cons).
      apply NoDup_app. split; [done|]. split; [|done].
      intros n Hn Hn'. apply (Hdisj n Hn). by apply list_elem_of_further.
    + apply Forall_app in Hpos as [H1 [Hc H2]%Forall_cons].
      apply Forall_app. by split.
    + pose proof (greatest_id_subset (l1 ++ cur :: l2) (l1 ++ l2)) as Hsub.
      etrans; [apply Hsub|lia].
      intros x [Hx|Hx]%elem_of_app; apply elem_of_app; auto.
      right. by apply list_elem_of_further.
Qed.

Lemma data_model_kept_from (ToNumber : string → number) (reqs : list request) :
  ∀ (d : disk) (l : list todo),
    getListFromFile d = (d, Return l) →
    NoDup (id <$> l) →
    Forall (λ x, 0 < id x) l →
    greatest_id l + Z.of_nat (length reqs) ≤ 2 ^ 53 →
    ∃ l', getListFromFile (disk_after ToNumber reqs d)
          = (disk_after ToNumber reqs d, Return l')
          ∧ NoDup (id <$> l') ∧ Forall (λ x, 0 < id x) l'.
Proof.
  induction reqs as [|req reqs IH]; intros d l Hl Hnd Hpos Hroom.
  { by exists l. }
  assert (∀ x, x ∈ l → id x < 2 ^ 53) as Hlt.
  { intros x Hx. pose proof (greatest_id_ge l x Hx). simpl length in Hroom. lia. }
  destruct (app_keeps_data_model ToNumber req d l Hl Hnd Hpos Hlt)
    as (l1 & Hl1 & Hnd1 & Hpos1 & Hg1).
  simpl. destruct (app ToNumber req d) as [d1 [res|e]]; simpl in Hl1.
  - apply (IH d1 l1); try done. simpl length in Hroom. lia.
  - by exists l1.
Qed.

(** X11. The service keeps the shape of its data: from a store that
    holds a list whose ids are positive and pairwise distinct, with room
    below 2^53 for one creation per request, whatever requests are
    served, the store afterwards still holds a list whose ids are
    positive and pairwise distinct. *)
Theorem data_model_kept (ToNumber : string → number) (reqs : list request)
    (d : disk) (l : list todo) :
  getListFromFile d = (d, Return l) →
  NoDup (id <$> l) →
  Forall (λ x, 0 < id x ∧ id x + Z.of_nat (length reqs) ≤ 2 ^ 53) l →
  Z.of_nat (length reqs) ≤ 2 ^ 53 →
  ∃ l', getListFromFile (disk_after ToNumber reqs d)
        = (disk_after ToNumber reqs d, Return l')
        ∧ NoDup (id <$> l') ∧ Forall (λ x, 0 < id x) l'.
Proof.
  intros Hl Hnd Hpos Hlen.
  apply (data_model_kept_from ToNumber reqs d l); try done.
  - eapply Forall_impl; [exact Hpos|]. by intros x [? _].
  - rewrite Forall_forall in Hpos.
    destruct (proj1 (greatest_id_char l _) eq_refl)
      as (_ & _ & [->|(x & Hx & <-)]); [lia | by apply Hpos].
Qed.

Lemma data_model_kept_witness :
  let reqs :=
    [POST_todos done_with_id_titled; PUT_todo "1" done_with_id;
     DELETE_todo "5"; POST_todos title_B; GET_todo "abc"] in
  ∃ l', getListFromFile (disk_after decimal reqs two_store)
        = (disk_after decimal reqs two_store, Return l')
        ∧ NoDup (id <$> l') ∧ Forall (λ x, 0 < id x) l'.
Proof.
  apply (data_model_kept decimal _ two_store two_todos);
    [reflexivity | by apply (bool_decide_unpack _)
    | by apply (bool_decide_unpack _) | by vm_compute].
Defined.

(** ** The id generator on any list *)

(** X12. Whatever the ids of the list below 2^53 (negative, zero or
    repeated), the new id is at least 1 and strictly greater than every
    id of the list, and it is exactly 1 when no id of the list is
    positive. *)
Theorem generateNewId_any_ids (l : list todo) :
  Forall (λ x, id x < 2 ^ 53) l →
  1 ≤ generateNewId l
  ∧ (∀ x, x ∈ l → id x < generateNewId l)
  ∧ ((∀ x, x ∈ l → id x ≤ 0) → generateNewId l = 1).
Proof.
  intros Hlt. rewrite Forall_forall in Hlt.
  split; [pose proof (generateNewId_pos l Hlt); lia|].
  split; [intros x Hx; by apply (generateNewId_gt l x Hlt)|].
  intros Hle. rewrite (generateNewId_exact l Hlt).
  assert (greatest_id l = 0) as ->; [|done].
  apply greatest_id_char. split; [done|]. split; auto.
Qed.

Lemma generateNewId_any_ids_witness :
  generateNewId [ {| id := -5; props := ∅ |}; {| id := 0; props := title_A |};
                  {| id := -5; props := title_B |} ] = 1.
Proof.
  apply generateNewId_any_ids.
  - by apply (bool_decide_unpack _).
  - intros x Hx.
    repeat (apply elem_of_cons in Hx as [->|Hx]; [simpl; lia|]).
    by apply elem_of_nil in Hx.
Defined.

(** X13. The new id depends only on which ids occur in the list: two
    lists with the same set of ids, in any order, with any repetitions
    and any other fields, get the same new id. *)
Theorem generateNewId_same_ids (l l' : list todo) :
  (∀ n, n ∈ (id <$> l) ↔ n ∈ (id <$> l')) →
  generateNewId l = generateNewId l'.
Proof.
  intros Hids. rewrite !generateNewId_greatest.
  by rewrite (greatest_id_same_ids l l' Hids).
Qed.

Lemma generateNewId_same_ids_witness :
  generateNewId two_todos
  = generateNewId [ {| id := 5; props := ∅ |}; {| id := 1; props := ∅ |};
                    {| id := 5; props := title_A |} ].
Proof.
  apply generateNewId_same_ids. intros n. unfold two_todos. simpl.
  rewrite !elem_of_cons, !elem_of_nil. tauto.
Defined.

(** ** What a request body can and cannot do *)

(** X14. [POST /todos] answers 404 [{error: "title mandatory"}] exactly
    when the title is missing or is [null], [false], the number 0 or the
    empty string; any other title (a non-empty string, a non-zero
    number, [true], an array, an object) passes the check. *)
Theorem title_rejected_iff (newItem : object) (d : disk) :
  post_todos newItem d
  = (d, Return (Some {| status := 404; body := JsonError "title mandatory" |}))
  ↔ newItem !! "title"%string
    ∈ [None; Some Null; Some (Bool false); Some (Num 0);
       Some (Str EmptyString)].
Proof.
  split.
  - intros Hpost.
    destruct (truthy (newItem !! "title"%string)) eqn:Ht.
    + exfalso.
      destruct (getListFromFile_cases d) as [[l Hl]|[e He]].
      * rewrite (post_todos_loaded d l Hl newItem Ht) in Hpost.
        by destruct (writable d).
      * unfold post_todos in Hpost. rewrite Ht in Hpost. run_io.
        by rewrite He in Hpost.
    + destruct (newItem !! "title"%string) as [[|[]|n|s| |]|];
        simpl in Ht; try done.
      * set_solver.
      * set_solver.
      * apply negb_false_iff, Z.eqb_eq in Ht as ->. set_solver.
      * apply negb_false_iff, String.eqb_eq in Ht as ->. set_solver.
      * set_solver.
  - intros Hin. unfold post_todos.
    assert (truthy (newItem !! "title"%string) = false) as ->; [|done].
    repeat (apply elem_of_cons in Hin as [->|Hin]; [done|]).
    by apply elem_of_nil in Hin.
Qed.

Lemma title_rejected_iff_witness :
  post_todos {[ "title"%string := Num 0 ]} two_store
  = (two_store,
     Return (Some {| status := 404; body := JsonError "title mandatory" |})).
Proof.
  apply title_rejected_iff. rewrite lookup_singleton_eq.
  do 3 apply list_elem_of_further. apply list_elem_of_here.
Defined.

Lemma merge_id_body_id (cur : todo) (newItem : object) (v : value) (z : Z) :
  merge_id cur (<[ "id"%string := v ]> newItem) z = merge_id cur newItem z.
Proof.
  unfold merge_id, spread_id. f_equal. apply map_eq. intros k.
  destruct (decide (k = "id"%string)) as [->|Hk].
  - by rewrite !lookup_delete_eq.
  - rewrite !lookup_delete_ne by done. rewrite !lookup_union.
    by rewrite lookup_insert_ne.
Qed.

(** X15. An [id] in the request body has no effect: a creation and an
    update behave the same, answer and disk, whether or not the body
    carries an [id] and whatever its value. *)
Theorem body_id_ignored (ToNumber : string → number) (param : string)
    (newItem : object) (v : value) (d : disk) :
  post_todos (<[ "id"%string := v ]> newItem) d = post_todos newItem d
  ∧ put_todo ToNumber param (<[ "id"%string := v ]> newItem) d
    = put_todo ToNumber param newItem d.
Proof.
  split.
  - unfold post_todos. rewrite lookup_insert_ne by done.
    unfold spread_id. by rewrite delete_insert_eq.
  - unfold put_todo. run_io.
    destruct (getListFromFile d) as [d0 [l|e]]; [|done].
    destruct (Array.findIndex _ l) as [i|]; [|done].
    destruct (l !! i) as [cur|]; [|done].
    destruct (ToNumber param) as [|z|]; try done.
    by rewrite merge_id_body_id.
Qed.

(** ** Fetching one record *)

(** X16. On a store whose ids are pairwise distinct, [GET /todos/:id]
    answers 200 with a record exactly when that record is in the stored
    list and the path parameter coerces to its id. *)
Theorem get_todo_answer (ToNumber : string → number) (param : string)
    (d : disk) (l : list todo) (item : todo) :
  getListFromFile d = (d, Return l) →
  NoDup (id <$> l) →
  get_todo ToNumber param d
  = (d, Return (Some {| status := 200; body := JsonItem item |}))
  ↔ item ∈ l ∧ ToNumber param = Int (id item).
Proof.
  intros Hl Hnd. split.
  - intros Hget.
    destruct (first_match (λ y, strict_eq (id y) (ToNumber param)) l)
      as [Hno|(l1 & cur & l2 & Heq & Hcur & Hl1)].
    + rewrite (get_todo_absent ToNumber d l Hl param Hno) in Hget.
      by injection Hget.
    + rewrite (get_todo_found ToNumber d l Hl param l1 l2 cur Heq Hcur Hl1)
        in Hget.
      injection Hget as <-. split; [|by apply strict_eq_Int].
      subst l. apply elem_of_app. right. apply list_elem_of_here.
  - intros [Hin Hn].
    apply list_elem_of_split in Hin as (l1 & l2 & ->).
    apply (get_todo_found ToNumber d _ Hl param l1 l2 item eq_refl).
    + rewrite Hn. simpl. apply Z.eqb_refl.
    + rewrite Hn. apply Forall_forall. intros y Hy. simpl.
      apply Z.eqb_neq. intros Heq.
      rewrite fmap_app in Hnd. simpl in Hnd.
      apply NoDup_app in Hnd as (_ & Hdisj & _).
      apply (Hdisj (id y)); [by apply list_elem_of_fmap_2|].
      rewrite Heq. apply list_elem_of_here.
Qed.

Lemma get_todo_answer_witness :
  get_todo decimal "5" two_store
  = (two_store,
     Return (Some {| status := 200;
                     body := JsonItem {| id := 5; props := title_B |} |}))
  ↔ {| id := 5; props := title_B |} ∈ two_todos ∧ decimal "5" = Int 5.
Proof.
  apply (get_todo_answer decimal "5" two_store two_todos);
    [reflexivity | by apply (bool_decide_unpack _)].
Defined.

(** ** The cross-origin middleware *)

(** X17. [allowCrossOrigin] always calls [next]; it never touches a
    response header other than the two it is about; with no [Origin]
    header, or an empty one, it leaves the response headers as they
    were; with any other [Origin] it echoes that origin in
    [Access-Control-Allow-Origin]; and running it twice is the same as
    running it once. *)
Theorem allowCrossOrigin_spec (req_headers res_headers : headers) :
  let out := allowCrossOrigin req_headers res_headers in
  out.2 = true
  ∧ (∀ k : string,
       k ≠ "access-control-allow-origin"%string →
       k ≠ "access-control-allow-headers"%string →
       out.1 !! k = res_headers !! k)
  ∧ (req_headers !! "origin"%string = None
     ∨ req_headers !! "origin"%string = Some EmptyString →
     out.1 = res_headers)
  ∧ (∀ o : string,
       req_headers !! "origin"%string = Some o → o ≠ EmptyString →
       out.1 !! "access-control-allow-origin"%string = Some o
       ∧ out.1 !! "access-control-allow-headers"%string
         = Some "Origin, X-Requested-With, Content-Type, Accept"%string)
  ∧ (allowCrossOrigin req_headers out.1).1 = out.1.
Proof.
  unfold allowCrossOrigin. simpl.
  destruct (req_headers !! "origin"%string) as [o|] eqn:Ho; simpl.
  - destruct (String.eqb_spec o EmptyString) as [->|Hne]; simpl.
    + split; [done|]. split; [done|]. split; [done|]. split; [|done].
      by intros o' [= <-] Hne.
    + split; [done|]. split.
      { intros k Hk1 Hk2. by rewrite !lookup_insert_ne. }
      split; [by intros [?|[= ->]]|]. split.
      { intros o' [= <-] _. split.
        - rewrite lookup_insert_ne by done. by rewrite lookup_insert_eq.
        - by rewrite lookup_insert_eq. }
      apply map_eq. intros k. rewrite !lookup_insert.
      repeat case_decide; congruence.
  - split; [done|]. split; [done|]. split; [done|]. split; [|done].
    by intros o' [=].
Qed.

Lemma allowCrossOrigin_spec_witness :
  (allowCrossOrigin {[ "origin"%string := "http://localhost:5173"%string ]}
     {[ "content-type"%string := "application/json"%string ]}).1
  !! "access-control-allow-origin"%string
  = Some "http://localhost:5173"%string
  ∧ (allowCrossOrigin ∅ {[ "content-type"%string := "application/json"%string ]}).1
    = {[ "content-type"%string := "application/json"%string ]}.
Proof.
  split.
  - apply (allowCrossOrigin_spec
             {[ "origin"%string := "http://localhost:5173"%string ]}
             {[ "content-type"%string := "application/json"%string ]}).
    + apply lookup_singleton_eq.
    + discriminate.
  - apply (allowCrossOrigin_spec ∅
             {[ "content-type"%string := "application/json"%string ]}).
    left. apply lookup_empty.
Defined.
